(** * hypoDDpy plotting: map with cross-sections, shape selection, plotter

    A shallow embedding of
      - [hypoddpy/plotting/map_cross_section.py]  (class [MapCrossSection]),
      - [hypoddpy/plotting/shape_selection.py]    (classes [Circle], [Polygon]),
      - [hypoddpy/hypodd_plotter.py]              (class [HypoDDPlotter]),
    and the properties of the layout, the extents, the shapes and the plotter.

    Conventions of the embedding.
      - A Python float is a rational number ([Q]); arithmetic is exact and
        "equal" on numbers is [Qeq] ([==]).  Division is [Qdiv]; every
        statement about a quotient carries the hypotheses that make its
        divisor non-zero.
      - A raised exception is a value of [exn]; a function that can raise
        returns a [result].
      - Code that draws or writes files runs in a state-and-exception monad
        over the pyplot state; what was done before an exception stays done.
      - numpy, obspy and matplotlib are not part of the repository: their
        functions are variables of the sections that use them. *)

From Stdlib Require Import QArith Qabs Lqa Qfield ZArith List String Ascii Bool Lia
  Morphisms Setoid.
Import ListNotations.
Local Open Scope Q_scope.

(** ** Python values shared by the three files *)

Inductive exn : Type :=
| AssertionError (msg : string)
| ValueError
| TypeError
| IndexError.

Inductive result (A : Type) : Type :=
| Ok (a : A)
| Raise (e : exn).
Arguments Ok {A} a.
Arguments Raise {A} e.

Definition rbind {A B} (r : result A) (k : A -> result B) : result B :=
  match r with
  | Ok a => k a
  | Raise e => Raise e
  end.

Declare Scope result_scope.
Delimit Scope result_scope with result.
Notation "x <- r ;; k" := (rbind r (fun x => k))
  (at level 61, r at next level, right associativity) : result_scope.
Notation "r ;;; k" := (rbind r (fun _ => k))
  (at level 61, right associativity) : result_scope.

(** [assert cond, msg] *)
Definition py_assert (cond : bool) (msg : string) : result unit :=
  if cond then Ok tt else Raise (AssertionError msg).

(** [a > b] and [a < b] on floats. *)
Definition Qgtb (a b : Q) : bool := negb (Qle_bool a b).
Definition Qltb (a b : Q) : bool := negb (Qle_bool b a).

(** A list ([[...]], mutable) or a tuple ([(...)], immutable) of floats. *)
Inductive seqkind : Type := PyList | PyTuple.

Record pyseq : Type := mkseq { kind : seqkind; items : list Q }.

(** [s[i]] *)
Definition getitem (s : pyseq) (i : nat) : result Q :=
  match nth_error (items s) i with
  | Some x => Ok x
  | None => Raise IndexError
  end.

(** [s[i] = v]: item assignment exists on lists only. *)
Fixpoint list_set (l : list Q) (i : nat) (v : Q) : option (list Q) :=
  match l, i with
  | [], _ => None
  | _ :: t, O => Some (v :: t)
  | h :: t, S j => option_map (cons h) (list_set t j v)
  end.

Definition setitem (s : pyseq) (i : nat) (v : Q) : result pyseq :=
  match kind s with
  | PyTuple => Raise TypeError
  | PyList =>
      match list_set (items s) i v with
      | Some l => Ok (mkseq PyList l)
      | None => Raise IndexError
      end
  end.

(** [if s:] on an argument that is [None] or a sequence: the sequence when
    the argument is true (not [None] and not empty). *)
Definition if_truthy (s : option pyseq) : option pyseq :=
  match s with
  | None => None
  | Some s => if Nat.eqb (List.length (items s)) 0 then None else Some s
  end.

(** [min(xs)] and [max(xs)]: the first smallest (largest) item; [ValueError]
    on an empty sequence. *)
Definition py_min (xs : list Q) : result Q :=
  match xs with
  | [] => Raise ValueError
  | x :: t => Ok (fold_left (fun m y => if Qltb y m then y else m) t x)
  end.

Definition py_max (xs : list Q) : result Q :=
  match xs with
  | [] => Raise ValueError
  | x :: t => Ok (fold_left (fun m y => if Qgtb y m then y else m) t x)
  end.

(** What "the minimum of the samples" means: an item below all items. *)
Definition is_min (m : Q) (xs : list Q) : Prop :=
  In m xs /\ forall x, In x xs -> m <= x.

Definition is_max (m : Q) (xs : list Q) : Prop :=
  In m xs /\ forall x, In x xs -> x <= m.


(** ** The pyplot state (matplotlib, as far as the repository drives it)

    pyplot keeps a current figure; [plt.figure()] replaces it by a fresh one of
    the default size, [plt.clf()] empties it, [plt.axes(...)] adds axes to it,
    [plt.savefig(name)] writes it to a file.  [print] appends a line to the
    standard output. *)
Module Pyplot.

(** An axes rectangle [[left, bottom, width, height]], in figure fractions. *)
Record Rect : Type := mkRect { left : Q; bottom : Q; width : Q; height : Q }.

(** Two rectangles overlap when their interiors meet. *)
Definition overlap (a b : Rect) : bool :=
  Qltb (left a) (left b + width b) && Qltb (left b) (left a + width a)
  && Qltb (bottom a) (bottom b + height b)
  && Qltb (bottom b) (bottom a + height a).

Definition rgba : Type := (Z * Z * Z * Z)%type.

Inductive colors : Type :=
| ColorName (name : string)
| ColorList (cs : list rgba).

Inductive transform : Type := transData | Geodetic.

(** One [ax.scatter(...)] or [ax.plot(...)] call with the keywords the
    repository passes ([s] or [markersize] is [size]; [c] or [color] is
    [color]). *)
Record Artist : Type := mkArtist {
  call : string;
  xs : list Q;
  ys : list Q;
  size : option Q;
  color : option colors;
  marker : option string;
  linestyle : option string;
  linewidth : option Q;
  via : transform }.

Record Axes : Type := mkAxes {
  position : Rect;
  projection : option string;
  xlim : list Q;
  ylim : list Q;
  extent : option (list Q);
  features : list string;
  xlabel : option string;
  ylabel : option string;
  artists : list Artist }.

Record Figure : Type := mkFigure { size_inches : Q * Q; axes : list Axes }.

Record state : Type := mkState {
  rc_figsize : Q * Q;
  gcf : Figure;
  files : list (string * Figure);
  stdout : list string }.

(** Computations that read and change the pyplot state and may raise. *)
Definition M (A : Type) : Type := state -> result A * state.

Definition ret {A} (a : A) : M A := fun s => (Ok a, s).

Definition bind {A B} (m : M A) (k : A -> M B) : M B :=
  fun s => match m s with
           | (Ok a, s') => k a s'
           | (Raise e, s') => (Raise e, s')
           end.

Definition lift {A} (r : result A) : M A := fun s => (r, s).

Definition set_gcf (f : Figure) (s : state) : state :=
  mkState (rc_figsize s) f (files s) (stdout s).

(** [plt.figure()] *)
Definition figure : M Figure :=
  fun s => let f := mkFigure (rc_figsize s) [] in (Ok f, set_gcf f s).

(** [plt.clf()] *)
Definition clf : M unit :=
  fun s => (Ok tt, set_gcf (mkFigure (size_inches (gcf s)) []) s).

(** [plt.axes(rect, ...)]: the new axes are the last of the figure; the
    handle returned is their index. *)
Definition add_axes (a : Axes) : M nat :=
  fun s => let f := gcf s in
           (Ok (List.length (axes f)),
            set_gcf (mkFigure (size_inches f) (axes f ++ [a])) s).

Fixpoint update_nth {A} (l : list A) (i : nat) (f : A -> A) : list A :=
  match l, i with
  | [], _ => []
  | h :: t, O => f h :: t
  | h :: t, S j => h :: update_nth t j f
  end.

Definition on_axes (ax : nat) (f : Axes -> Axes) : M unit :=
  fun s => let g := gcf s in
           (Ok tt, set_gcf (mkFigure (size_inches g) (update_nth (axes g) ax f)) s).

Definition add_artist (art : Artist) (a : Axes) : Axes :=
  mkAxes (position a) (projection a) (xlim a) (ylim a) (extent a)
         (features a) (xlabel a) (ylabel a) (artists a ++ [art]).

Definition add_feature (name : string) (a : Axes) : Axes :=
  mkAxes (position a) (projection a) (xlim a) (ylim a) (extent a)
         (features a ++ [name]) (xlabel a) (ylabel a) (artists a).

Definition with_extent (e : list Q) (a : Axes) : Axes :=
  mkAxes (position a) (projection a) (xlim a) (ylim a) (Some e)
         (features a) (xlabel a) (ylabel a) (artists a).

Definition with_xlabel (l : string) (a : Axes) : Axes :=
  mkAxes (position a) (projection a) (xlim a) (ylim a) (extent a)
         (features a) (Some l) (ylabel a) (artists a).

Definition with_ylabel (l : string) (a : Axes) : Axes :=
  mkAxes (position a) (projection a) (xlim a) (ylim a) (extent a)
         (features a) (xlabel a) (Some l) (artists a).

(** [plt.savefig(name)] *)
Definition savefig (name : string) : M unit :=
  fun s => (Ok tt, mkState (rc_figsize s) (gcf s) (files s ++ [(name, gcf s)])
                           (stdout s)).

(** [print(line)] *)
Definition print (line : string) : M unit :=
  fun s => (Ok tt, mkState (rc_figsize s) (gcf s) (files s) (stdout s ++ [line])).

(** What of an axes is fixed by the extents and the layout: everything but
    what is drawn into it. *)
Definition frame (a : Axes) : Rect * list Q * list Q * option (list Q) :=
  (position a, xlim a, ylim a, extent a).

(** A computation that always returns, with a result that satisfies [P], and
    that leaves the files written, the default figure size and the frames of
    the axes of the current figure as they are. *)
Definition steady {A} (m : M A) (P : A -> Prop) : Prop :=
  forall s, exists a s',
    m s = (Ok a, s') /\ P a /\ files s' = files s /\
    rc_figsize s' = rc_figsize s /\
    map frame (axes (gcf s')) = map frame (axes (gcf s)).

(** A computation that writes no file, whether it returns or raises. *)
Definition keeps_files {A} (m : M A) : Prop :=
  forall s, files (snd (m s)) = files s.
End Pyplot.

Declare Scope plt_scope.
Delimit Scope plt_scope with plt.
Notation "x <- m ;; k" := (Pyplot.bind m (fun x => k))
  (at level 61, m at next level, right associativity) : plt_scope.
Notation "m ;;; k" := (Pyplot.bind m (fun _ => k))
  (at level 61, right associativity) : plt_scope.

(** ** [plotting/map_cross_section.py] *)
Module MapCrossSection.
Import Pyplot.

Definition NE_coast_resolutions : list string :=
  ["10m"; "50m"; "110m"]%string.
Definition GSHSS_coast_resolutions : list string :=
  ["auto"; "coarse"; "low"; "intermediate"; "high"; "full"]%string.

Definition in_strings (s : string) (l : list string) : bool :=
  existsb (String.eqb s) l.

(** The attributes of [self] that the extents and the layout read and
    write. *)
Record t : Type := mk {
  km_per_deg_lat : Q;
  map_extent : pyseq;
  depth_extent : pyseq;
  pad_left : Q;
  pad_right : Q;
  pad_top : Q;
  pad_bottom : Q;
  coastlines : option string }.

(** The finished object: [self] with its three axes (handles into the
    current figure). *)
Record axes3 : Type := mkAxes3 {
  self : t;
  ax_xz : nat;
  ax_zy : nat;
  ax_map : nat }.

Definition set_map_extent (s : t) (e : pyseq) : t :=
  mk (km_per_deg_lat s) e (depth_extent s) (pad_left s) (pad_right s)
     (pad_top s) (pad_bottom s) (coastlines s).

(** The properties index extents that [__init__] has stored: four items for
    the map, at least two for the depth. *)
Definition lat_min (s : t) : Q := nth 2 (items (map_extent s)) 0.
Definition lat_max (s : t) : Q := nth 3 (items (map_extent s)) 0.
Definition lon_min (s : t) : Q := nth 0 (items (map_extent s)) 0.
Definition lon_max (s : t) : Q := nth 1 (items (map_extent s)) 0.
Definition depth_min (s : t) : Q := nth 0 (items (depth_extent s)) 0.
Definition depth_max (s : t) : Q := nth 1 (items (depth_extent s)) 0.

(** [_get_map_extent].  The numbers that the source formats into the
    assertion messages are left out of the messages. *)
Definition _get_map_extent (map_extent : option pyseq)
    (latitudes longitudes : option (list Q)) (extent_buffer : Q)
    : result pyseq :=
  (match if_truthy map_extent with
   | Some map_extent =>
       py_assert (Nat.eqb (List.length (items map_extent)) 4)
                 "len(map_extent) != 4" ;;;
       x1 <- getitem map_extent 1 ;; x0 <- getitem map_extent 0 ;;
       py_assert (Qgtb x1 x0) "map_extent: x0 >= x1" ;;;
       y1 <- getitem map_extent 3 ;; y0 <- getitem map_extent 2 ;;
       py_assert (Qgtb y1 y0) "map_extent: y0 >= y1" ;;;
       Ok map_extent
   | None =>
       match latitudes, longitudes with
       | Some latitudes, Some longitudes =>
           lon_min <- py_min longitudes ;; lon_max <- py_max longitudes ;;
           lat_min <- py_min latitudes ;; lat_max <- py_max latitudes ;;
           let lon_buffer := (lon_max - lon_min) * extent_buffer in
           let lat_buffer := (lat_max - lat_min) * extent_buffer in
           let lon_min := lon_min - lon_buffer in
           let lon_max := lon_max + lon_buffer in
           let lat_min := lat_min - lat_buffer in
           let lat_max := lat_max + lat_buffer in
           Ok (mkseq PyTuple [lon_min; lon_max; lat_min; lat_max])
       | _, _ =>
           Raise (AssertionError "need either extent or latitudes and longitudes")
       end
   end)%result.

(** [_get_depth_extent] *)
Definition _get_depth_extent (depth_extent : option pyseq)
    (depths : option (list Q)) (extent_buffer : Q) : result pyseq :=
  (match if_truthy depth_extent with
   | Some depth_extent =>
       z1 <- getitem depth_extent 1 ;; z0 <- getitem depth_extent 0 ;;
       py_assert (Qgtb z1 z0) "depth_extent: z0 >= z1" ;;;
       Ok depth_extent
   | None =>
       match depths with
       | Some depths =>
           depth_min <- py_min depths ;; depth_max <- py_max depths ;;
           let depth_buffer := (depth_max - depth_min) * extent_buffer in
           let depth_min := depth_min - depth_buffer in
           let depth_max := depth_max + depth_buffer in
           Ok (mkseq PyTuple [depth_min; depth_max])
       | None => Raise (AssertionError "need either depth_extents or depths")
       end
   end)%result.

(** The coastlines that [__init__] keeps: a known resolution, or none. *)
Definition checked_coastlines (coastlines : option string) : option string :=
  match coastlines with
  | Some c =>
      if in_strings c NE_coast_resolutions
         || in_strings c GSHSS_coast_resolutions
      then Some c else None
  | None => None
  end.

(** The frames of the three axes that [__init__] makes for the extents [m]
    and [d] and the rectangles [rect_map, rect_xz, rect_zy], in the order in
    which it makes them. *)
Definition frames_of (m d : pyseq) (r : Rect * Rect * Rect)
    : list (Rect * list Q * list Q * option (list Q)) :=
  let '(rect_map, rect_xz, rect_zy) := r in
  [ (rect_xz, firstn 2 (items m), rev (items d), None);
    (rect_zy, items d, skipn 2 (items m), None);
    (rect_map, [], [], Some (items m)) ].

Section Layout.
(** [np.cos(np.radians(x))], the cosine of an angle in degrees. *)
Variable cosd : Q -> Q.

Definition km_per_deg_lon (s : t) : Q :=
  km_per_deg_lat s * cosd ((lat_min s + lat_max s) / 2).
Definition lonrange (s : t) : Q := lon_max s - lon_min s.
Definition latrange (s : t) : Q := lat_max s - lat_min s.
Definition depthrange (s : t) : Q :=
  nth 1 (items (depth_extent s)) 0 - nth 0 (items (depth_extent s)) 0.
Definition lonrange_km (s : t) : Q := lonrange s * km_per_deg_lon s.
Definition latrange_km (s : t) : Q := latrange s * km_per_deg_lat s.
Definition xrange_km (s : t) : Q := lonrange_km s + depthrange s.
Definition yrange_km (s : t) : Q := latrange_km s + depthrange s.
Definition plot_aspect (s : t) : Q := xrange_km s / yrange_km s.

(** [_adjustminmax]: [self.map_extent[i] -= d] reads the item and assigns
    it, and the assignment raises [TypeError] when the extent is a
    tuple. *)
Definition _adjustminmax (s : t) (fig_aspect : Q) : result t :=
  (if Qgtb fig_aspect (plot_aspect s) then
     let add_kms := ((yrange_km s * fig_aspect) - xrange_km s) / 2 in
     let add_deg := add_kms / km_per_deg_lon s in
     e0 <- getitem (map_extent s) 0 ;;
     m <- setitem (map_extent s) 0 (e0 - add_deg) ;;
     e1 <- getitem m 1 ;;
     m <- setitem m 1 (e1 + add_deg) ;;
     Ok (set_map_extent s m)
   else
     let add_kms := ((xrange_km s / fig_aspect) - yrange_km s) / 2 in
     let add_deg := add_kms / km_per_deg_lat s in
     e2 <- getitem (map_extent s) 2 ;;
     m <- setitem (map_extent s) 2 (e2 - add_deg) ;;
     e3 <- getitem m 3 ;;
     m <- setitem m 3 (e3 + add_deg) ;;
     Ok (set_map_extent s m))%result.

(** The locals of [_make_rects] once the scale factors are final (the
    source's lines up to "make axes rects"), with [self] as it is then. *)
Record scales : Type := mkScales {
  adjusted : t;
  fig_inches_x : Q;
  fig_inches_y : Q;
  fig_xrange : Q;
  fig_yrange : Q;
  fig_aspect : Q;
  inch_per_km_x : Q;
  inch_per_km_y : Q }.

Definition _make_rects_scales (s : t) (fig : Figure) (fill_figure : bool)
    : result scales :=
  (let '(fig_inches_x, fig_inches_y) := size_inches fig in
   let fig_xrange := fig_inches_x - pad_left s - pad_right s in
   let fig_yrange := fig_inches_y - pad_top s - pad_bottom s in
   let fig_aspect := fig_xrange / fig_yrange in
   s <- (if fill_figure then _adjustminmax s fig_aspect else Ok s) ;;
   let inch_per_km_x := fig_xrange / xrange_km s in
   let inch_per_km_y := fig_yrange / yrange_km s in
   let '(inch_per_km_x, inch_per_km_y) :=
     if Qgtb (plot_aspect s) fig_aspect then
       (inch_per_km_x, inch_per_km_y * (fig_aspect / plot_aspect s))
     else if Qltb (plot_aspect s) fig_aspect then
       (inch_per_km_x * (plot_aspect s / fig_aspect), inch_per_km_y)
     else (inch_per_km_x, inch_per_km_y) in
   Ok (mkScales s fig_inches_x fig_inches_y fig_xrange fig_yrange
                fig_aspect inch_per_km_x inch_per_km_y))%result.

(** [_make_rects]: [self] after it, and [rect_map, rect_xz, rect_zy]. *)
Definition _make_rects (s : t) (fig : Figure) (fill_figure : bool)
    : result (t * (Rect * Rect * Rect)) :=
  (k <- _make_rects_scales s fig fill_figure ;;
   let s := adjusted k in
   let left_width := lonrange_km s * inch_per_km_x k / fig_inches_x k in
   let right_width := depthrange s * inch_per_km_x k / fig_inches_x k in
   let lower_height := depthrange s * inch_per_km_y k / fig_inches_y k in
   let upper_height := latrange_km s * inch_per_km_y k / fig_inches_y k in
   let left_left := pad_left s / fig_inches_x k in
   let right_left := left_left + left_width in
   let lower_bottom := pad_bottom s / fig_inches_y k in
   let upper_bottom := lower_bottom + lower_height in
   let rect_map := mkRect left_left upper_bottom left_width upper_height in
   let rect_xz := mkRect left_left lower_bottom left_width lower_height in
   let rect_zy := mkRect right_left upper_bottom right_width upper_height in
   Ok (s, (rect_map, rect_xz, rect_zy)))%result.

(** Valid extents: four map items, a positive range on every axis, and
    a mean latitude at which a degree of longitude has a positive
    length. *)
Definition valid_extents (s : t) : Prop :=
  List.length (items (map_extent s)) = 4%nat /\
  0 < km_per_deg_lat s /\
  0 < cosd ((lat_min s + lat_max s) / 2) /\
  lon_min s < lon_max s /\ lat_min s < lat_max s /\
  depth_min s < depth_max s.

(** A valid figure size and padding: the padding leaves a drawing area. *)
Definition valid_figure (s : t) (fig : Figure) : Prop :=
  0 < fst (size_inches fig) /\ 0 < snd (size_inches fig) /\
  0 < fst (size_inches fig) - pad_left s - pad_right s /\
  0 < snd (size_inches fig) - pad_top s - pad_bottom s.

Definition dquote : string := String (ascii_of_nat 34) EmptyString.

(** [__init__] with [figsize] left at its default, so that [plt.figure]
    makes a figure of pyplot's default size. *)
Definition __init__ (fill_figure : bool)
    (pad_left pad_right pad_top pad_bottom : Q)
    (map_extent depth_extent : option pyseq) (extent_buffer : Q)
    (latitudes longitudes depths : option (list Q)) (gridlines : bool)
    (coastlines : option string) : M axes3 :=
  (let km_per_deg_lat := (1852 # 1000) * 60 in
   map_extent <- lift (_get_map_extent map_extent latitudes longitudes
                                       extent_buffer) ;;
   depth_extent <- lift (_get_depth_extent depth_extent depths
                                           extent_buffer) ;;
   coast <- match coastlines with
            | Some c =>
                if in_strings c NE_coast_resolutions
                   || in_strings c GSHSS_coast_resolutions
                then ret (Some c)
                else print ("Invalid coastlines string: " ++ dquote ++ c
                            ++ dquote) ;;; ret None
            | None => ret None
            end ;;
   let s := mk km_per_deg_lat map_extent depth_extent pad_left pad_right
               pad_top pad_bottom coast in
   fig <- figure ;;
   sr <- lift (_make_rects s fig fill_figure) ;;
   let '(s, (rect_map, rect_xz, rect_zy)) := sr in
   ax_xz <- add_axes (mkAxes rect_xz None
                        (firstn 2 (items (MapCrossSection.map_extent s)))
                        (rev (items (MapCrossSection.depth_extent s)))
                        None [] None None []) ;;
   ax_zy <- add_axes (mkAxes rect_zy None
                        (items (MapCrossSection.depth_extent s))
                        (skipn 2 (items (MapCrossSection.map_extent s)))
                        None [] None None []) ;;
   ax_map <- add_axes (mkAxes rect_map (Some "Mercator") [] [] None []
                         None None []) ;;
   on_axes ax_map (with_extent (items (MapCrossSection.map_extent s))) ;;;
   match MapCrossSection.coastlines s with
   | Some c =>
       if in_strings c GSHSS_coast_resolutions
       then on_axes ax_map (add_feature ("GSHHS " ++ c))
       else if in_strings c NE_coast_resolutions
            then on_axes ax_map (add_feature "coastlines 10m")
            else ret tt
   | None => ret tt
   end ;;;
   on_axes ax_map (add_feature (if gridlines then "gridlines"
                                else "gridline labels")) ;;;
   ret (mkAxes3 s ax_xz ax_zy ax_map))%string%plt.
End Layout.
End MapCrossSection.

(** ** Strings, as the plotter reads them from the catalog *)
Module Str.
Local Open Scope string_scope.

(** [needle in hay] *)
Fixpoint contains (needle hay : string) : bool :=
  match hay with
  | EmptyString => String.eqb needle EmptyString
  | String _ rest => String.prefix needle hay || contains needle rest
  end.

(** [s.upper()], on ASCII text *)
Definition upper_ascii (c : ascii) : ascii :=
  let n := nat_of_ascii c in
  if Nat.leb 97 n && Nat.leb n 122 then ascii_of_nat (n - 32) else c.

Fixpoint upper (s : string) : string :=
  match s with
  | EmptyString => EmptyString
  | String c rest => String (upper_ascii c) (upper rest)
  end.

Definition colon : ascii := ":"%char.

Fixpoint has_colon (s : string) : bool :=
  match s with
  | EmptyString => false
  | String c rest => Ascii.eqb c colon || has_colon rest
  end.

(** [s.split(":")[-1]]: what follows the last colon, or all of [s]. *)
Fixpoint last_field (s : string) : string :=
  match s with
  | EmptyString => EmptyString
  | String c rest =>
      if has_colon rest then last_field rest
      else if Ascii.eqb c colon then rest else s
  end.

(** The white space that [int()] skips at both ends. *)
Definition is_space (c : ascii) : bool :=
  let n := nat_of_ascii c in
  Nat.eqb n 32 || (Nat.leb 9 n && Nat.leb n 13) || (Nat.leb 28 n && Nat.leb n 31).

Fixpoint lstrip (cs : list ascii) : list ascii :=
  match cs with
  | c :: rest => if is_space c then lstrip rest else cs
  | [] => []
  end.

Definition strip (cs : list ascii) : list ascii :=
  rev (lstrip (rev (lstrip cs))).

Definition digit (c : ascii) : option Z :=
  let n := nat_of_ascii c in
  if Nat.leb 48 n && Nat.leb n 57 then Some (Z.of_nat (n - 48)) else None.

(** Decimal digits, single underscores allowed between two digits. *)
Fixpoint digits (cs : list ascii) (acc : Z) (after_digit : bool) : option Z :=
  match cs with
  | [] => if after_digit then Some acc else None
  | c :: rest =>
      match digit c with
      | Some d => digits rest (10 * acc + d)%Z true
      | None =>
          if Ascii.eqb c "_"%char && after_digit then digits rest acc false
          else None
      end
  end.

(** [int(s)] on a string: [ValueError] unless [s] is an optionally signed
    decimal literal, possibly surrounded by white space. *)
Definition py_int (s : string) : result Z :=
  let body :=
    match strip (list_ascii_of_string s) with
    | c :: rest =>
        if Ascii.eqb c "-"%char then option_map Z.opp (digits rest 0%Z false)
        else if Ascii.eqb c "+"%char then digits rest 0%Z false
        else digits (c :: rest) 0%Z false
    | [] => None
    end in
  match body with
  | Some z => Ok z
  | None => Raise ValueError
  end.
End Str.

(** ** [plotting/shape_selection.py] *)
Module ShapeSelection.
Import Pyplot.

(** What the plotter hands to a shape constructor: a number, or a list of
    numbers. *)
Inductive pyval : Type :=
| VNum (q : Q)
| VSeq (l : list Q).

(** Use of a value as a float. *)
Definition as_float (v : pyval) : result Q :=
  match v with
  | VNum q => Ok q
  | VSeq _ => Raise TypeError
  end.

Record Circle : Type := mkCircle {
  longitude : pyval;
  latitude : pyval;
  radius : pyval }.

(** A call [Circle(a, ...)] with positional arguments [args]:
    [__init__(self, longitude, latitude, radius)] takes exactly three and
    stores them. *)
Definition Circle__init__ (args : list pyval) : result Circle :=
  match args with
  | [longitude; latitude; radius] => Ok (mkCircle longitude latitude radius)
  | _ => Raise TypeError
  end.

Record Polygon : Type := mkPolygon { polygon : list (list Q) }.

(** [Polygon(polygon)] *)
Definition Polygon__init__ (polygon : list (list Q)) : result Polygon :=
  Ok (mkPolygon polygon).

Inductive Shape : Type :=
| ACircle (c : Circle)
| APolygon (p : Polygon).

(** [a == b] on two lists of floats. *)
Fixpoint list_Qeqb (a b : list Q) : bool :=
  match a, b with
  | [], [] => true
  | x :: a, y :: b => Qeq_bool x y && list_Qeqb a b
  | _, _ => false
  end.

Definition item (v : list Q) (i : nat) : result Q :=
  match nth_error v i with
  | Some x => Ok x
  | None => Raise IndexError
  end.

Fixpoint column (p : list (list Q)) (i : nat) : result (list Q) :=
  match p with
  | [] => Ok []
  | v :: rest =>
      (x <- item v i ;; xs <- column rest i ;; Ok (x :: xs))%result
  end.

Section WithLibraries.
(** [obspy.geodetics.base.gps2dist_azimuth(lat1, lon1, lat2, lon2)[0]]:
    the distance in metres. *)
Variable gps2dist_azimuth : Q -> Q -> Q -> Q -> Q.
(** [matplotlib.path.Path(polygon).contains_point((x, y))] *)
Variable contains_point : list (list Q) -> Q * Q -> result bool.
(** [np.cos(np.radians(x))] and [np.sin(np.radians(x))] *)
Variables cosd sind : Q -> Q.

(** [Circle.contains] *)
Definition Circle_contains (c : Circle) (event_longitude event_latitude : Q)
    : result bool :=
  (clat <- as_float (latitude c) ;;
   clon <- as_float (longitude c) ;;
   let dist := gps2dist_azimuth event_latitude event_longitude clat clon in
   r <- as_float (radius c) ;;
   Ok (Qle_bool (dist / (1852 * 60)) r))%result.

(** [Polygon.contains] *)
Definition Polygon_contains (p : Polygon) (event_longitude event_latitude : Q)
    : result bool :=
  contains_point (polygon p) (event_longitude, event_latitude).

Definition contains (sh : Shape) (event_longitude event_latitude : Q)
    : result bool :=
  match sh with
  | ACircle c => Circle_contains c event_longitude event_latitude
  | APolygon p => Polygon_contains p event_longitude event_latitude
  end.

(** [Circle.plot(ax, **kwargs)], with the axes given: the keywords are
    not passed on. *)
Definition Circle_plot (c : Circle) (ax : nat) : M unit :=
  (lat <- lift (as_float (latitude c)) ;;
   let degrees_long_per_lat := 1 / cosd lat in
   let thetas := map (fun k => inject_Z (Z.of_nat k)) (seq 0 361) in
   lon <- lift (as_float (longitude c)) ;;
   r <- lift (as_float (radius c)) ;;
   on_axes ax (add_artist
     (mkArtist "plot"
        (map (fun th => lon + r * cosd th * degrees_long_per_lat) thetas)
        (map (fun th => lat + r * sind th) thetas)
        None None None None None transData)))%plt.

(** [Polygon.plot(ax, **kwargs)], with the axes given: closes the stored
    vertex list in place when it is open. *)
Definition Polygon_plot (p : Polygon) (ax : nat)
    (linestyle : option string) (linewidth : option Q) (tr : transform)
    : M Polygon :=
  (let vs := polygon p in
   first <- lift (match vs with
                  | v :: _ => Ok v
                  | [] => Raise IndexError
                  end) ;;
   let vs := if negb (list_Qeqb first (last vs first))
             then vs ++ [first] else vs in
   xs <- lift (column vs 0) ;;
   ys <- lift (column vs 1) ;;
   on_axes ax (add_artist (mkArtist "plot" xs ys None None None
                                    linestyle linewidth tr)) ;;;
   ret (mkPolygon vs))%plt.

Definition plot (sh : Shape) (ax : nat)
    (linestyle : option string) (linewidth : option Q) (tr : transform)
    : M Shape :=
  (match sh with
   | ACircle c => Circle_plot c ax ;;; ret sh
   | APolygon p =>
       p <- Polygon_plot p ax linestyle linewidth tr ;; ret (APolygon p)
   end)%plt.

(** A shape whose outline can be drawn: a circle of three numbers, or a
    polygon with at least one vertex and two coordinates in every vertex. *)
Definition numeric (c : Circle) : Prop :=
  exists lon lat r, c = mkCircle (VNum lon) (VNum lat) (VNum r).

Definition drawable (sh : Shape) : Prop :=
  match sh with
  | ACircle c => numeric c
  | APolygon p =>
      polygon p <> [] /\ Forall (fun v => (2 <= List.length v)%nat) (polygon p)
  end.

(** A shape whose [contains] returns: a circle of three numbers, or a polygon
    whose path matplotlib accepts. *)
Definition testable (sh : Shape) : Prop :=
  match sh with
  | ACircle c => numeric c
  | APolygon p => forall pt, exists b, contains_point (polygon p) pt = Ok b
  end.
End WithLibraries.
End ShapeSelection.

(** ** The event catalog (obspy), as far as the plotter reads it

    Every origin carries its coordinates; [depth] is in metres.  A method id
    is read through [str(...)], a comment through its [text]. *)
Module Catalog.
Record Comment : Type := mkComment { text : option string }.

Record Origin : Type := mkOrigin {
  latitude : Q;
  longitude : Q;
  depth : Q;
  method_id : option string;
  comments : list Comment }.

Record Magnitude : Type := mkMagnitude { mag : Q }.

Record Event : Type := mkEvent {
  origins : list Origin;
  magnitudes : list Magnitude }.

(** [event.origins[0]], [event.origins[-1]], [event.magnitudes[0]] *)
Definition first_origin (e : Event) : result Origin :=
  match origins e with
  | o :: _ => Ok o
  | [] => Raise IndexError
  end.

Definition last_origin (e : Event) : result Origin :=
  match origins e with
  | o :: rest => Ok (last rest o)
  | [] => Raise IndexError
  end.

Definition first_magnitude (e : Event) : result Magnitude :=
  match magnitudes e with
  | m :: _ => Ok m
  | [] => Raise IndexError
  end.

(** The first and the last origins of the events of a catalog that have
    origins, in catalog order. *)
Definition first_origins (events : list Event) : list Origin :=
  flat_map (fun e => match origins e with
                     | o :: _ => [o]
                     | [] => []
                     end) events.

Definition last_origins (events : list Event) : list Origin :=
  flat_map (fun e => match origins e with
                     | o :: rest => [last rest o]
                     | [] => []
                     end) events.
End Catalog.

(** ** [hypodd_plotter.py] *)
Module HypoDDPlotter.
Import Pyplot Catalog.

Record Positions : Type := mkPositions {
  latitudes : list Q;
  longitudes : list Q;
  depths : list Q }.

(** [Positions.validate] *)
Definition validate (p : Positions) : bool :=
  Nat.eqb (List.length (latitudes p)) (List.length (longitudes p))
  && Nat.eqb (List.length (latitudes p)) (List.length (depths p)).

(** The attributes of the plotter.  [colors], [magnitudes], [inshape] and
    [marker_size] are assigned by [_plot_original_relocated] before they are
    read; until then they hold an empty list or zero here. *)
Record t : Type := mk {
  cat : list Event;
  map_extent : option pyseq;
  depth_extent : option pyseq;
  coastlines : option string;
  file_base : string;
  original_filename : string;
  relocated_filename : string;
  replace_scatter_with_plot : bool;
  quiet : bool;
  colors : list rgba;
  magnitudes : list Q;
  inshape : list bool;
  marker_size : Q }.

(** [__init__]: the [coastlines] argument is not stored. *)
Definition __init__ (cat : list Event) (map_extent depth_extent : option pyseq)
    (coastlines : option string) (replace_scatter_with_plot quiet : bool) : t :=
  mk cat map_extent depth_extent None "hypoDDpy" "" "" replace_scatter_with_plot
     quiet [] [] [] 0.

Definition set_coastlines (s : t) (c : option string) : t :=
  mk (cat s) (map_extent s) (depth_extent s) c (file_base s)
     (original_filename s) (relocated_filename s)
     (replace_scatter_with_plot s) (quiet s) (colors s) (magnitudes s)
     (inshape s) (marker_size s).

Definition set_file_base (s : t) (b : string) : t :=
  mk (cat s) (map_extent s) (depth_extent s) (coastlines s) b
     (original_filename s) (relocated_filename s)
     (replace_scatter_with_plot s) (quiet s) (colors s) (magnitudes s)
     (inshape s) (marker_size s).

Definition set_filenames (s : t) (o r : string) : t :=
  mk (cat s) (map_extent s) (depth_extent s) (coastlines s) (file_base s)
     o r (replace_scatter_with_plot s) (quiet s) (colors s) (magnitudes s)
     (inshape s) (marker_size s).

Definition set_params (s : t) (cs : list rgba) (ms : list Q) (ins : list bool)
    : t :=
  mk (cat s) (map_extent s) (depth_extent s) (coastlines s) (file_base s)
     (original_filename s) (relocated_filename s)
     (replace_scatter_with_plot s) (quiet s) cs ms ins (marker_size s).

Definition set_marker_size (s : t) (m : Q) : t :=
  mk (cat s) (map_extent s) (depth_extent s) (coastlines s) (file_base s)
     (original_filename s) (relocated_filename s)
     (replace_scatter_with_plot s) (quiet s) (colors s) (magnitudes s)
     (inshape s) m.

(** [_extract_positions] *)
Fixpoint extract (events : list Event) (original relocated : Positions)
    : result (Positions * Positions) :=
  match events with
  | [] => Ok (original, relocated)
  | event :: rest =>
      (o <- first_origin event ;;
       let original :=
         mkPositions (latitudes original ++ [latitude o])
                     (longitudes original ++ [longitude o])
                     (depths original ++ [depth o / 1000]) in
       r <- last_origin event ;;
       let relocated :=
         mkPositions (latitudes relocated ++ [latitude r])
                     (longitudes relocated ++ [longitude r])
                     (depths relocated ++ [depth r / 1000]) in
       extract rest original relocated)%result
  end.

Definition _extract_positions (s : t) : result (Positions * Positions) :=
  extract (cat s) (mkPositions [] [] []) (mkPositions [] [] []).

(** The [for comment in ...: ... break / else: cluster_id = 0] loop. *)
Fixpoint cluster_id (cs : list Comment) : result Z :=
  match cs with
  | [] => Ok 0%Z
  | c :: rest =>
      match text c with
      | Some comment =>
          if negb (String.eqb comment "")
             && Str.contains "HypoDD cluster id" comment
          then Str.py_int (Str.last_field comment)
          else cluster_id rest
      | None => cluster_id rest
      end
  end.

(** The test of that loop on one comment:
    [comment and "HypoDD cluster id" in comment]. *)
Definition names_cluster (c : Comment) : bool :=
  match text c with
  | Some comment =>
      negb (String.eqb comment "") && Str.contains "HypoDD cluster id" comment
  | None => false
  end.

(** The test on the method id of an origin: it is there and
    ["HYPODD" in str(method_id).upper()]. *)
Definition is_hypodd (o : Origin) : bool :=
  match method_id o with
  | Some m => Str.contains "HYPODD" (Str.upper m)
  | None => false
  end.

(** An event that the plotter can draw: it has an origin and a magnitude,
    and when its last origin is a HypoDD one, the cluster comment (if any)
    holds an integer. *)
Definition usable_event (e : Event) : Prop :=
  origins e <> [] /\ Catalog.magnitudes e <> [] /\
  forall o, last_origin e = Ok o -> is_hypodd o = true ->
            exists k, cluster_id (comments o) = Ok k.

(** Samples that do not all coincide. *)
Definition spread (xs : list Q) : Prop :=
  exists a b, In a xs /\ In b xs /\ a < b.

(** A valid extent configuration: an explicit extent is increasing on each
    axis (and a map extent has four items); without one, the samples that
    the extent is computed from are spread on each axis. *)
Definition valid_map_config (map_extent : option pyseq)
    (latitudes longitudes : list Q) : Prop :=
  match if_truthy map_extent with
  | Some e => exists x0 x1 y0 y1,
                items e = [x0; x1; y0; y1] /\ x0 < x1 /\ y0 < y1
  | None => spread longitudes /\ spread latitudes
  end.

Definition valid_depth_config (depth_extent : option pyseq) (depths : list Q)
    : Prop :=
  match if_truthy depth_extent with
  | Some e => exists z0 z1 rest, items e = z0 :: z1 :: rest /\ z0 < z1
  | None => spread depths
  end.

(** [i is True] filters of [_plot_2D] *)
Fixpoint select {A} (mask : list bool) (xs : list A) : list A :=
  match mask, xs with
  | i :: mask, x :: xs => if i then x :: select mask xs else select mask xs
  | _, _ => []
  end.

Section WithLibraries.
(** [ColorConverter().to_rgba("grey")] and [get_cmap("Paired", 12)] *)
Variable color_invalid : rgba.
Variable cmap : Z -> rgba.
Variable gps2dist_azimuth : Q -> Q -> Q -> Q -> Q.
Variable contains_point : list (list Q) -> Q * Q -> result bool.
Variables cosd sind : Q -> Q.

(** The colour that one round of the loop of [_set_plot_params]
    appends. *)
Definition event_color (event : Event) : result rgba :=
  (o <- last_origin event ;;
   match method_id o with
   | None => Ok color_invalid
   | Some m =>
       if negb (Str.contains "HYPODD" (Str.upper m)) then Ok color_invalid
       else (c <- cluster_id (comments o) ;; Ok (cmap c))
   end)%result.

(** [_set_plot_params]: the loop, on the three lists it appends to. *)
Fixpoint plot_params (events : list Event) (shape : option ShapeSelection.Shape)
    (colors : list rgba) (magnitudes : list Q) (inshape : list bool)
    : result (list rgba * list Q * list bool) :=
  match events with
  | [] => Ok (colors, magnitudes, inshape)
  | event :: rest =>
      (m <- first_magnitude event ;;
       let magnitudes := magnitudes ++ [mag m] in
       c <- event_color event ;;
       let colors := colors ++ [c] in
       inside <- match shape with
                 | Some sh =>
                     o <- last_origin event ;;
                     b <- ShapeSelection.contains gps2dist_azimuth
                            contains_point sh (longitude o) (latitude o) ;;
                     Ok (if negb b then false else true)
                 | None => Ok true
                 end ;;
       plot_params rest shape colors magnitudes (inshape ++ [inside]))%result
  end.

Definition _set_plot_params (s : t) (shape : option ShapeSelection.Shape)
    : result t :=
  (p <- plot_params (cat s) shape [] [] [] ;;
   let '(colors, magnitudes, inshape) := p in
   Ok (set_params s colors magnitudes inshape))%result.

(** [_plot_2D], as its callers use it ([ref_mag] is never passed). *)
Definition _plot_2D (s : t) (ax : nat) (xs ys : list Q)
    (tr : option transform) : M unit :=
  (let sizes := marker_size s * marker_size s in
   let tr := match tr with Some tr => tr | None => transData end in
   if replace_scatter_with_plot s then
     on_axes ax (add_artist
       (mkArtist "plot" xs ys (Some (1 # 10)) (Some (ColorName "#e0e0e0"))
                 (Some ".") (Some "") None tr)) ;;;
     on_axes ax (add_artist
       (mkArtist "plot" (select (inshape s) xs) (select (inshape s) ys)
                 (Some (1 # 10)) (Some (ColorName "k")) (Some ".")
                 (Some "") None tr))
   else
     on_axes ax (add_artist
       (mkArtist "scatter" xs ys (Some sizes) (Some (ColorName "#e0e0e0"))
                 None None None tr)) ;;;
     on_axes ax (add_artist
       (mkArtist "scatter" (select (inshape s) xs) (select (inshape s) ys)
                 (Some sizes)
                 (Some (ColorList (select (inshape s) (colors s))))
                 (Some ".") None None tr)))%string%plt.

(** [_plot_events]: the extents of the axes made, and the shape after its
    outline was drawn. *)
Definition _plot_events (s : t) (positions : Positions)
    (shape : option ShapeSelection.Shape)
    (map_extent depth_extent : option pyseq)
    : M (option ShapeSelection.Shape * (pyseq * pyseq)) :=
  (clf ;;;
   mcs <- MapCrossSection.__init__ cosd false (6 # 10) (6 # 10) (4 # 10)
            (4 # 10) map_extent depth_extent (2 # 10)
            (Some (latitudes positions)) (Some (longitudes positions))
            (Some (depths positions)) true (coastlines s) ;;
   _plot_2D s (MapCrossSection.ax_map mcs) (longitudes positions)
            (latitudes positions) (Some Geodetic) ;;;
   shape <- match shape with
            | Some sh =>
                sh <- ShapeSelection.plot cosd sind sh
                        (MapCrossSection.ax_map mcs) (Some "--")
                        (Some (5 # 10)) Geodetic ;;
                ret (Some sh)
            | None => ret None
            end ;;
   _plot_2D s (MapCrossSection.ax_zy mcs) (depths positions)
            (latitudes positions) None ;;;
   on_axes (MapCrossSection.ax_zy mcs) (with_xlabel "Depth (km)") ;;;
   on_axes (MapCrossSection.ax_zy mcs) (with_ylabel "Latitude") ;;;
   _plot_2D s (MapCrossSection.ax_xz mcs) (longitudes positions)
            (depths positions) None ;;;
   on_axes (MapCrossSection.ax_xz mcs) (with_xlabel "Longitude") ;;;
   on_axes (MapCrossSection.ax_xz mcs) (with_ylabel "Depth (km)") ;;;
   ret (shape,
        (MapCrossSection.map_extent (MapCrossSection.self mcs),
         MapCrossSection.depth_extent (MapCrossSection.self mcs))))%string%plt.

(** [_plot_original_relocated], with [marker_size] at its default. *)
Definition _plot_original_relocated (s : t)
    (shape : option ShapeSelection.Shape) : M t :=
  (let s := set_filenames s (file_base s ++ "_original.pdf")
                          (file_base s ++ "_relocated.pdf") in
   pos <- lift (_extract_positions s) ;;
   let '(original_pos, relocated_pos) := pos in
   s <- lift (_set_plot_params s shape) ;;
   let s := set_marker_size s 1 in
   r <- _plot_events s original_pos shape (map_extent s) (depth_extent s) ;;
   let '(shape, (map_extent, depth_extent)) := r in
   savefig (original_filename s) ;;;
   (if negb (quiet s)
    then print ("Output figure: " ++ original_filename s) else ret tt) ;;;
   _plot_events s relocated_pos shape (Some map_extent) (Some depth_extent) ;;;
   savefig (relocated_filename s) ;;;
   (if negb (quiet s)
    then print ("Output figure: " ++ relocated_filename s) else ret tt) ;;;
   ret s)%string%plt.

(** [if s:] on an argument that is [None] or a string, or a list. *)
Definition truthy_string (s : option string) : option string :=
  match s with
  | Some EmptyString => None
  | _ => s
  end.

Definition truthy_list {A} (l : option (list A)) : option (list A) :=
  match l with
  | Some [] => None
  | _ => l
  end.

(** [plot_events] *)
Definition plot_events (s : t) (file_base : option string)
    (circle : option (list Q)) (polygon : option (list (list Q)))
    (coastlines : option string) : M (t * (string * string)) :=
  (let s := match truthy_string coastlines with
            | Some c => set_coastlines s (Some c)
            | None => s
            end in
   let s := match truthy_string file_base with
            | Some b => set_file_base s b
            | None => s
            end in
   let shape := None in
   shape <- match truthy_list circle with
            | Some circle =>
                c <- lift (ShapeSelection.Circle__init__
                             [ShapeSelection.VSeq circle]) ;;
                ret (Some (ShapeSelection.ACircle c))
            | None => ret shape
            end ;;
   shape <- match truthy_list polygon with
            | Some polygon =>
                p <- lift (ShapeSelection.Polygon__init__ polygon) ;;
                ret (Some (ShapeSelection.APolygon p))
            | None => ret shape
            end ;;
   s <- _plot_original_relocated s shape ;;
   ret (s, (original_filename s, relocated_filename s)))%plt.

(** No shape, or one that can be drawn; and no shape, or one that can be
    tested and drawn. *)
Definition drawable_shape (shape : option ShapeSelection.Shape) : Prop :=
  match shape with
  | None => True
  | Some sh => ShapeSelection.drawable sh
  end.

Definition usable_shape (shape : option ShapeSelection.Shape) : Prop :=
  match shape with
  | None => True
  | Some sh =>
      ShapeSelection.drawable sh /\ ShapeSelection.testable contains_point sh
  end.
End WithLibraries.
End HypoDDPlotter.

(** ** [ShapeSelection.include] and [ShapeSelection.exclude]

    Both walk the catalog and read the preferred origin of every event; an
    event without one makes [origin.longitude] raise [AttributeError]. *)
Module ShapeFilter.
Import Catalog.

Inductive outcome (A : Type) : Type :=
| Done (a : A)
| Failed (e : exn)
| AttributeError.
Arguments Done {A} a.
Arguments Failed {A} e.
Arguments AttributeError {A}.

Section WithLibraries.
(** [event.preferred_origin()] (obspy): the origin, or [None]. *)
Variable preferred_origin : Event -> option Origin.
Variable gps2dist_azimuth : Q -> Q -> Q -> Q -> Q.
Variable contains_point : list (list Q) -> Q * Q -> result bool.

(** The loop of [include], on the catalog that it appends to. *)
Fixpoint include_loop (sh : ShapeSelection.Shape) (catalog new_catalog : list Event)
    : outcome (list Event) :=
  match catalog with
  | [] => Done new_catalog
  | event :: rest =>
      match preferred_origin event with
      | None => AttributeError
      | Some origin =>
          match ShapeSelection.contains gps2dist_azimuth contains_point sh
                  (longitude origin) (latitude origin) with
          | Ok b =>
              include_loop sh rest
                (if b then new_catalog ++ [event] else new_catalog)
          | Raise e => Failed e
          end
      end
  end.

(** The loop of [exclude]. *)
Fixpoint exclude_loop (sh : ShapeSelection.Shape) (catalog new_catalog : list Event)
    : outcome (list Event) :=
  match catalog with
  | [] => Done new_catalog
  | event :: rest =>
      match preferred_origin event with
      | None => AttributeError
      | Some origin =>
          match ShapeSelection.contains gps2dist_azimuth contains_point sh
                  (longitude origin) (latitude origin) with
          | Ok b =>
              exclude_loop sh rest
                (if negb b then new_catalog ++ [event] else new_catalog)
          | Raise e => Failed e
          end
      end
  end.

Definition include (sh : ShapeSelection.Shape) (catalog : list Event)
    : outcome (list Event) :=
  include_loop sh catalog [].

Definition exclude (sh : ShapeSelection.Shape) (catalog : list Event)
    : outcome (list Event) :=
  exclude_loop sh catalog [].

(** An event whose preferred origin the shape contains. *)
Definition inside (sh : ShapeSelection.Shape) (event : Event) : bool :=
  match preferred_origin event with
  | Some origin =>
      match ShapeSelection.contains gps2dist_azimuth contains_point sh
              (longitude origin) (latitude origin) with
      | Ok b => b
      | Raise _ => false
      end
  | None => false
  end.

(** An event that the shape can be asked about. *)
Definition decided (sh : ShapeSelection.Shape) (event : Event) : Prop :=
  exists origin b,
    preferred_origin event = Some origin /\
    ShapeSelection.contains gps2dist_azimuth contains_point sh
      (longitude origin) (latitude origin) = Ok b.
End WithLibraries.
End ShapeFilter.

(** ** Library values used to run the model on concrete inputs *)
Module Libraries.
Import Pyplot.

(** [matplotlib]: the named colour grey and the twelve colours of the
    qualitative colour map "Paired", as 8-bit RGBA. *)
Definition grey : rgba := (128, 128, 128, 255)%Z.

Definition Paired : list rgba :=
  [ (166, 206, 227, 255); (31, 120, 180, 255); (178, 223, 138, 255);
    (51, 160, 44, 255); (251, 154, 153, 255); (227, 26, 28, 255);
    (253, 191, 111, 255); (255, 127, 0, 255); (202, 178, 214, 255);
    (106, 61, 154, 255); (255, 255, 153, 255); (177, 89, 40, 255) ]%Z.

(** [matplotlib]: a colour map called on an integer returns the entry at
    that index, the first entry for an index below zero and the last entry
    for an index past the end. *)
Definition listed_cmap (lut : list rgba) (i : Z) : rgba :=
  let n := Z.of_nat (List.length lut) in
  let j := if (i <? 0)%Z then 0%Z
           else if (n - 1 <? i)%Z then (n - 1)%Z else i in
  nth (Z.to_nat j) lut (0, 0, 0, 0)%Z.

(** What the specification calls [palette[cluster_id mod palette_size]]. *)
Definition palette_mod (lut : list rgba) (i : Z) : rgba :=
  nth (Z.to_nat (i mod Z.of_nat (List.length lut))) lut (0, 0, 0, 0)%Z.

(** pyplot before anything was drawn: an empty current figure of the
    default size, 6.4 by 4.8 inches. *)
Definition fresh_pyplot : state :=
  mkState (6.4, 4.8) (mkFigure (6.4, 4.8) []) [] [].

(** The map and depth extents of the end-to-end scenario, in an object as
    [__init__] stores them, and two figures. *)
Definition scenario : MapCrossSection.t :=
  MapCrossSection.mk ((1852 # 1000) * 60)
    (mkseq PyList [45; 46; -13; -12]) (mkseq PyList [0; 50])
    0.6 0.6 0.4 0.4 None.

Definition figure_small : Figure := mkFigure (6.4, 4.8) [].
Definition figure_wide : Figure := mkFigure (12, 5) [].

(** A rational cosine and sine of an angle in degrees (Taylor polynomials
    with 355/113 for pi), to evaluate layouts with. *)
Definition cosd (x : Q) : Q :=
  let r := x * (355 # 113) / 180 in
  1 - r * r / 2 + r * r * r * r / 24.

Definition sind (x : Q) : Q :=
  let r := x * (355 # 113) / 180 in
  r - r * r * r / 6.

(** A rational distance in metres that is zero between equal points, to
    evaluate circles with: 1852 * 60 metres per degree along the grid. *)
Definition grid_dist (lat1 lon1 lat2 lon2 : Q) : Q :=
  1852 * 60 * (Qabs (lat1 - lat2) + Qabs (lon1 - lon2)).

(** Catalogs to run the plotter on.  [event] makes an event of an original
    and a relocated origin (latitude, longitude, depth in metres) with the
    method id and the comments of the relocated one, and its magnitudes. *)
Definition event (lat0 lon0 depth0 lat1 lon1 depth1 : Q)
    (method : option string) (comments : list (option string))
    (mags : list Q) : Catalog.Event :=
  Catalog.mkEvent
    [Catalog.mkOrigin lat0 lon0 depth0 None [];
     Catalog.mkOrigin lat1 lon1 depth1 method (map Catalog.mkComment comments)]
    (map Catalog.mkMagnitude mags).

(** Three relocated events, as in the end-to-end scenario. *)
Definition three_events : list Catalog.Event :=
  [ event (-12.80) 45.30 30000 (-12.81) 45.31 31000
      (Some "smi:local/HypoDD") [Some "HypoDD cluster id: 1"] [2.5];
    event (-12.60) 45.50 20000 (-12.62) 45.52 22000
      (Some "smi:local/HypoDD") [None; Some "HypoDD cluster id: 3"] [3.1];
    event (-12.70) 45.70 40000 (-12.70) 45.70 40000 None [] [1.8] ]%string.

(** One relocated event without a magnitude. *)
Definition no_magnitude : list Catalog.Event :=
  [ event (-12.80) 45.30 30000 (-12.81) 45.31 31000
      (Some "smi:local/HypoDD") [Some "HypoDD cluster id: 1"] [] ]%string.

(** One relocated event whose cluster comment holds no integer. *)
Definition malformed_cluster : list Catalog.Event :=
  [ event (-12.80) 45.30 30000 (-12.81) 45.31 31000
      (Some "smi:local/HypoDD") [Some "HypoDD cluster id: n/a"] [2.5] ]%string.

(** Two events at the same longitude. *)
Definition same_longitude : list Catalog.Event :=
  [ event (-12.80) 45.40 30000 (-12.81) 45.40 31000 None [] [2.5];
    event (-12.60) 45.40 20000 (-12.62) 45.40 22000 None [] [3.1] ].

(** A point-in-path test to evaluate polygons with: inside the bounding
    box of the vertices (exact for axis-parallel rectangles). *)
Definition in_bounding_box (p : list (list Q)) (pt : Q * Q) : result bool :=
  (xs <- ShapeSelection.column p 0 ;;
   ys <- ShapeSelection.column p 1 ;;
   x0 <- py_min xs ;; x1 <- py_max xs ;;
   y0 <- py_min ys ;; y1 <- py_max ys ;;
   Ok (Qle_bool x0 (fst pt) && Qle_bool (fst pt) x1
       && Qle_bool y0 (snd pt) && Qle_bool (snd pt) y1))%result.

(** A preferred origin to evaluate catalog filters with: the last origin. *)
Definition last_as_preferred (e : Catalog.Event) : option Catalog.Origin :=
  match Catalog.origins e with
  | o :: rest => Some (last rest o)
  | [] => None
  end.

(** The polygon of the main swarm, and a circle around it. *)
Definition swarm_polygon : ShapeSelection.Shape :=
  ShapeSelection.APolygon
    (ShapeSelection.mkPolygon
       [[45.2; -12.9]; [45.2; -12.7]; [45.6; -12.7]; [45.6; -12.9]]).

Definition swarm_circle : ShapeSelection.Shape :=
  ShapeSelection.ACircle
    (ShapeSelection.mkCircle (ShapeSelection.VNum 45.3)
       (ShapeSelection.VNum (-12.8)) (ShapeSelection.VNum 0.1)).
End Libraries.

(** * Properties *)

(** ** Comparisons, minimum and maximum *)

Lemma Qgtb_true (a b : Q) : Qgtb a b = true <-> b < a.
Proof.
  unfold Qgtb. rewrite negb_true_iff.
  destruct (Qle_bool a b) eqn:E.
  - apply Qle_bool_iff in E. split; [discriminate | intro; lra].
  - split; [intros _ | reflexivity].
    destruct (Qlt_le_dec b a) as [H | H]; [exact H |].
    apply Qle_bool_iff in H. congruence.
Qed.

Lemma Qgtb_false (a b : Q) : Qgtb a b = false <-> a <= b.
Proof.
  unfold Qgtb. rewrite negb_false_iff. apply Qle_bool_iff.
Qed.

Lemma Qltb_true (a b : Q) : Qltb a b = true <-> a < b.
Proof. apply (Qgtb_true b a). Qed.

Lemma Qltb_false (a b : Q) : Qltb a b = false <-> b <= a.
Proof. apply (Qgtb_false b a). Qed.

Lemma fold_min_is_min (t : list Q) (x : Q) :
  is_min (fold_left (fun m y => if Qltb y m then y else m) t x) (x :: t).
Proof.
  revert x. induction t as [| y t IH]; intro x; simpl.
  - split; [now left |]. intros z [<- | []]. lra.
  - destruct (Qltb y x) eqn:E.
    + apply Qltb_true in E. destruct (IH y) as [Hin Hle]. split.
      * destruct Hin as [<- | Hin]; [right; now left | right; now right].
      * intros z [<- | [<- | Hz]].
        -- specialize (Hle y (or_introl eq_refl)). lra.
        -- apply Hle. now left.
        -- apply Hle. now right.
    + apply Qltb_false in E. destruct (IH x) as [Hin Hle]. split.
      * destruct Hin as [<- | Hin]; [now left | right; now right].
      * intros z [<- | [<- | Hz]].
        -- apply Hle. now left.
        -- specialize (Hle x (or_introl eq_refl)). lra.
        -- apply Hle. now right.
Qed.

Lemma fold_max_is_max (t : list Q) (x : Q) :
  is_max (fold_left (fun m y => if Qgtb y m then y else m) t x) (x :: t).
Proof.
  revert x. induction t as [| y t IH]; intro x; simpl.
  - split; [now left |]. intros z [<- | []]. lra.
  - destruct (Qgtb y x) eqn:E.
    + apply Qgtb_true in E. destruct (IH y) as [Hin Hle]. split.
      * destruct Hin as [<- | Hin]; [right; now left | right; now right].
      * intros z [<- | [<- | Hz]].
        -- specialize (Hle y (or_introl eq_refl)). lra.
        -- apply Hle. now left.
        -- apply Hle. now right.
    + apply Qgtb_false in E. destruct (IH x) as [Hin Hle]. split.
      * destruct Hin as [<- | Hin]; [now left | right; now right].
      * intros z [<- | [<- | Hz]].
        -- apply Hle. now left.
        -- specialize (Hle x (or_introl eq_refl)). lra.
        -- apply Hle. now right.
Qed.

Lemma py_min_spec (xs : list Q) :
  xs <> [] -> exists m, py_min xs = Ok m /\ is_min m xs.
Proof.
  destruct xs as [| x t]; [congruence | intros _].
  eexists. split; [reflexivity | apply fold_min_is_min].
Qed.

Lemma py_max_spec (xs : list Q) :
  xs <> [] -> exists m, py_max xs = Ok m /\ is_max m xs.
Proof.
  destruct xs as [| x t]; [congruence | intros _].
  eexists. split; [reflexivity | apply fold_max_is_max].
Qed.

(** ** The extents ([_get_map_extent], [_get_depth_extent]) *)
Module ExtentProps.
Import MapCrossSection.

(** Without an explicit extent and without samples the assertion fails. *)
Lemma map_extent_needs_input (e : option pyseq) (lats lons : option (list Q))
    (b : Q) :
  if_truthy e = None -> lats = None \/ lons = None ->
  _get_map_extent e lats lons b =
    Raise (AssertionError "need either extent or latitudes and longitudes").
Proof.
  intros He H. unfold _get_map_extent. rewrite He.
  destruct H as [-> | ->]; [reflexivity | now destruct lats].
Qed.

Lemma depth_extent_needs_input (e : option pyseq) (b : Q) :
  if_truthy e = None ->
  _get_depth_extent e None b =
    Raise (AssertionError "need either depth_extents or depths").
Proof. intros He. unfold _get_depth_extent. now rewrite He. Qed.

(** Empty samples make [min] raise. *)
Lemma map_extent_empty_samples (e : option pyseq) (lats lons : list Q) (b : Q) :
  if_truthy e = None -> lats = [] \/ lons = [] ->
  _get_map_extent e (Some lats) (Some lons) b = Raise ValueError.
Proof.
  intros He H. unfold _get_map_extent. rewrite He.
  destruct lons as [| x lons]; [reflexivity |].
  destruct H as [-> | H]; [reflexivity | discriminate].
Qed.

Lemma depth_extent_empty_samples (e : option pyseq) (b : Q) :
  if_truthy e = None -> _get_depth_extent e (Some []) b = Raise ValueError.
Proof. intros He. unfold _get_depth_extent. now rewrite He. Qed.

(** An explicit map extent comes back unchanged, has four items and is
    increasing on both axes; otherwise an assertion fails. *)
Lemma explicit_map_extent_checked (e m : pyseq) (lats lons : option (list Q))
    (b : Q) :
  if_truthy (Some e) = Some e ->
  _get_map_extent (Some e) lats lons b = Ok m ->
  m = e /\ exists x0 x1 y0 y1,
    items e = [x0; x1; y0; y1] /\ x0 < x1 /\ y0 < y1.
Proof.
  intros He H. unfold _get_map_extent in H. rewrite He in H.
  destruct e as [k l]. unfold getitem in H. simpl in H.
  destruct l as [| x0 [| x1 [| y0 [| y1 [| z l]]]]]; try discriminate.
  simpl in H.
  destruct (Qgtb x1 x0) eqn:Ex; [| discriminate]. simpl in H.
  destruct (Qgtb y1 y0) eqn:Ey; [| discriminate]. simpl in H.
  injection H as <-. split; [reflexivity |].
  exists x0, x1, y0, y1. repeat split;
    [now apply Qgtb_true | now apply Qgtb_true].
Qed.

Lemma explicit_map_extent_rejected (k : seqkind) (x0 x1 y0 y1 : Q)
    (lats lons : option (list Q)) (b : Q) :
  x1 <= x0 \/ y1 <= y0 ->
  exists msg, _get_map_extent (Some (mkseq k [x0; x1; y0; y1])) lats lons b =
              Raise (AssertionError msg).
Proof.
  intros H. unfold _get_map_extent, getitem. simpl.
  destruct (Qgtb x1 x0) eqn:Ex; simpl.
  - destruct (Qgtb y1 y0) eqn:Ey; simpl.
    + apply Qgtb_true in Ex, Ey. destruct H; lra.
    + eexists; reflexivity.
  - eexists; reflexivity.
Qed.

Lemma explicit_depth_extent_rejected (k : seqkind) (z0 z1 : Q) (rest : list Q)
    (depths : option (list Q)) (b : Q) :
  z1 <= z0 ->
  _get_depth_extent (Some (mkseq k (z0 :: z1 :: rest))) depths b =
    Raise (AssertionError "depth_extent: z0 >= z1").
Proof.
  intros H. unfold _get_depth_extent, getitem. simpl.
  apply Qgtb_false in H. now rewrite H.
Qed.

(** C4: without an explicit extent and for non-empty samples, the map
    extent is (min_lon, max_lon, min_lat, max_lat) of the samples moved
    outward by the buffer fraction times the range of the axis at each end
    of each axis, and it is that box itself when the fraction is 0; the
    depth extent follows the same rule on the depth samples. *)
Theorem extent_from_samples (e ed : option pyseq)
    (latitudes longitudes depths : list Q) (b : Q) :
  if_truthy e = None -> if_truthy ed = None ->
  latitudes <> [] -> longitudes <> [] -> depths <> [] ->
  exists lon_min lon_max lat_min lat_max depth_min depth_max m0 d0,
    is_min lon_min longitudes /\ is_max lon_max longitudes /\
    is_min lat_min latitudes /\ is_max lat_max latitudes /\
    is_min depth_min depths /\ is_max depth_max depths /\
    _get_map_extent e (Some latitudes) (Some longitudes) b =
      Ok (mkseq PyTuple [lon_min - (lon_max - lon_min) * b;
                         lon_max + (lon_max - lon_min) * b;
                         lat_min - (lat_max - lat_min) * b;
                         lat_max + (lat_max - lat_min) * b]) /\
    _get_depth_extent ed (Some depths) b =
      Ok (mkseq PyTuple [depth_min - (depth_max - depth_min) * b;
                         depth_max + (depth_max - depth_min) * b]) /\
    _get_map_extent e (Some latitudes) (Some longitudes) 0 = Ok m0 /\
    Forall2 Qeq (items m0) [lon_min; lon_max; lat_min; lat_max] /\
    _get_depth_extent ed (Some depths) 0 = Ok d0 /\
    Forall2 Qeq (items d0) [depth_min; depth_max].
Proof.
  intros He Hed Hlat Hlon Hdep.
  destruct (py_min_spec longitudes Hlon) as (lon_min & Elon_min & Hlon_min).
  destruct (py_max_spec longitudes Hlon) as (lon_max & Elon_max & Hlon_max).
  destruct (py_min_spec latitudes Hlat) as (lat_min & Elat_min & Hlat_min).
  destruct (py_max_spec latitudes Hlat) as (lat_max & Elat_max & Hlat_max).
  destruct (py_min_spec depths Hdep) as (depth_min & Edep_min & Hdep_min).
  destruct (py_max_spec depths Hdep) as (depth_max & Edep_max & Hdep_max).
  exists lon_min, lon_max, lat_min, lat_max, depth_min, depth_max.
  unfold _get_map_extent, _get_depth_extent. rewrite He, Hed.
  rewrite Elon_min, Elon_max, Elat_min, Elat_max, Edep_min, Edep_max.
  simpl. do 2 eexists.
  repeat (split; [first [assumption | reflexivity] |]).
  split; [| split; [reflexivity |]].
  - repeat constructor; simpl; ring.
  - repeat constructor; simpl; ring.
Qed.

Lemma extent_from_samples_witness :
  exists lon_min lon_max lat_min lat_max depth_min depth_max m0 d0,
    is_min lon_min [45.2; 45.6; 45.4] /\ is_max lon_max [45.2; 45.6; 45.4] /\
    is_min lat_min [-12.9; -12.7; -12.8] /\ is_max lat_max [-12.9; -12.7; -12.8] /\
    is_min depth_min [10; 35; 20] /\ is_max depth_max [10; 35; 20] /\
    _get_map_extent None (Some [-12.9; -12.7; -12.8]) (Some [45.2; 45.6; 45.4])
                    (2 # 10) =
      Ok (mkseq PyTuple [lon_min - (lon_max - lon_min) * (2 # 10);
                         lon_max + (lon_max - lon_min) * (2 # 10);
                         lat_min - (lat_max - lat_min) * (2 # 10);
                         lat_max + (lat_max - lat_min) * (2 # 10)]) /\
    _get_depth_extent (Some (mkseq PyList [])) (Some [10; 35; 20]) (2 # 10) =
      Ok (mkseq PyTuple [depth_min - (depth_max - depth_min) * (2 # 10);
                         depth_max + (depth_max - depth_min) * (2 # 10)]) /\
    _get_map_extent None (Some [-12.9; -12.7; -12.8]) (Some [45.2; 45.6; 45.4])
                    0 = Ok m0 /\
    Forall2 Qeq (items m0) [lon_min; lon_max; lat_min; lat_max] /\
    _get_depth_extent (Some (mkseq PyList [])) (Some [10; 35; 20]) 0 = Ok d0 /\
    Forall2 Qeq (items d0) [depth_min; depth_max].
Proof.
  apply (extent_from_samples None (Some (mkseq PyList []))
           [-12.9; -12.7; -12.8] [45.2; 45.6; 45.4] [10; 35; 20] (2 # 10));
    first [reflexivity | discriminate].
Defined.

(** C5, at an input that breaks it: two events at the same longitude and no
    explicit extent.  The extent computed from the samples has
    [lon_max = lon_min], no error is raised, and the constructor goes on to
    the layout and makes the axes with that extent; the same four numbers
    given as an explicit extent are rejected by the assertion.  The depth
    extent of equal depths passes in the same way. *)
Theorem degenerate_sample_extent_accepted :
  _get_map_extent None (Some [-12.9; -12.7]) (Some [45.4; 45.4]) 0.2
    = Ok (mkseq PyTuple [45.4000; 45.4000; -12.9400; -12.6600]) /\
  _get_depth_extent None (Some [10; 10]) 0.2
    = Ok (mkseq PyTuple [10.0; 10.0]) /\
  (exists mcs st,
     __init__ Libraries.cosd false 0.6 0.6 0.4 0.4 None None 0.2
       (Some [-12.9; -12.7]) (Some [45.4; 45.4]) (Some [10; 35]) true None
       Libraries.fresh_pyplot = (Ok mcs, st) /\
     map_extent (self mcs)
       = mkseq PyTuple [45.4000; 45.4000; -12.9400; -12.6600] /\
     List.length (Pyplot.axes (Pyplot.gcf st)) = 3%nat) /\
  _get_map_extent (Some (mkseq PyTuple [45.4000; 45.4000; -12.9400; -12.6600]))
                  None None 0.2
    = Raise (AssertionError "map_extent: x0 >= x1") /\
  _get_depth_extent (Some (mkseq PyTuple [10.0; 10.0])) None 0.2
    = Raise (AssertionError "depth_extent: z0 >= z1").
Proof.
  split; [vm_compute; reflexivity |].
  split; [vm_compute; reflexivity |].
  split; [| split; vm_compute; reflexivity].
  eexists. eexists.
  split; [vm_compute; reflexivity |].
  split; vm_compute; reflexivity.
Qed.
End ExtentProps.

(** ** The panel layout ([_adjustminmax], [_make_rects]) *)
Module LayoutProps.
Import Pyplot MapCrossSection.

Lemma Qdiv_pos (a b : Q) : 0 < a -> 0 < b -> 0 < a / b.
Proof. intros Ha Hb. apply Qlt_shift_div_l; lra. Qed.

Lemma Qdiv_lt_mult (a b c : Q) : 0 < b -> (a / b < c <-> a < c * b).
Proof.
  intros Hb. split; intros H.
  - assert (E : a == a / b * b) by (field; lra). rewrite E.
    apply Qmult_lt_compat_r; assumption.
  - apply Qlt_shift_div_r; assumption.
Qed.

Lemma Qdiv_le_mult (a b c : Q) : 0 < b -> (c <= a / b <-> c * b <= a).
Proof.
  intros Hb. split; intros H.
  - assert (E : a == a / b * b) by (field; lra). rewrite E.
    apply Qmult_le_compat_r; lra.
  - apply Qle_shift_div_l; assumption.
Qed.

(** The adjustment of the two scale factors, on the four numbers it reads:
    both factors come out equal and positive. *)
Lemma adjusted_scales_equal (X Y fx fy : Q) :
  0 < X -> 0 < Y -> 0 < fx -> 0 < fy ->
  let pa := X / Y in
  let fa := fx / fy in
  let k := if Qgtb pa fa then (fx / X, fy / Y * (fa / pa))
           else if Qltb pa fa then (fx / X * (pa / fa), fy / Y)
                else (fx / X, fy / Y) in
  fst k == snd k /\ 0 < fst k.
Proof.
  intros HX HY Hfx Hfy pa fa k. subst k pa fa.
  pose proof (Qdiv_pos fx X Hfx HX) as Px.
  pose proof (Qdiv_pos fy Y Hfy HY) as Py.
  destruct (Qgtb (X / Y) (fx / fy)) eqn:E1; simpl.
  - split; [field; repeat split; lra | exact Px].
  - destruct (Qltb (X / Y) (fx / fy)) eqn:E2; simpl.
    + assert (E : fx / X * (X / Y / (fx / fy)) == fy / Y)
        by (field; repeat split; lra).
      split; [exact E | rewrite E; exact Py].
    + apply Qgtb_false in E1. apply Qltb_false in E2.
      assert (E : X / Y == fx / fy) by lra.
      split; [| exact Px].
      assert (E' : fx / X == 1 / (Y * (X / Y) / fx))
        by (field; repeat split; lra).
      rewrite E', E. field; repeat split; lra.
Qed.

Section Layout.
Variable cosd : Q -> Q.

Abbreviation km_per_deg_lon := (km_per_deg_lon cosd).
Abbreviation lonrange_km := (lonrange_km cosd).
Abbreviation xrange_km := (xrange_km cosd).
Abbreviation plot_aspect := (plot_aspect cosd).
Abbreviation valid_extents := (valid_extents cosd).

Lemma depthrange_eq (s : t) : depthrange s = depth_max s - depth_min s.
Proof. reflexivity. Qed.

Lemma valid_ranges (s : t) :
  valid_extents s ->
  0 < km_per_deg_lon s /\ 0 < lonrange_km s /\ 0 < latrange_km s /\
  0 < depthrange s /\ 0 < xrange_km s /\ 0 < yrange_km s.
Proof.
  intros (_ & Hk & Hc & Hlon & Hlat & Hd).
  assert (Hkl : 0 < km_per_deg_lon s).
  { unfold MapCrossSection.km_per_deg_lon. apply Qmult_lt_0_compat; assumption. }
  assert (Hx : 0 < lonrange_km s).
  { unfold MapCrossSection.lonrange_km, lonrange.
    apply Qmult_lt_0_compat; [lra | assumption]. }
  assert (Hy : 0 < latrange_km s).
  { unfold latrange_km, latrange. apply Qmult_lt_0_compat; [lra | assumption]. }
  assert (Hz : 0 < depthrange s) by (rewrite depthrange_eq; lra).
  unfold MapCrossSection.xrange_km, MapCrossSection.yrange_km.
  repeat split; try assumption; lra.
Qed.

(** What [_adjustminmax] returns on a list of four items. *)
Lemma adjust_list (s : t) (a b c d fa : Q) :
  map_extent s = mkseq PyList [a; b; c; d] ->
  _adjustminmax cosd s fa =
    Ok (set_map_extent s (mkseq PyList
          (if Qgtb fa (plot_aspect s) then
             let add_deg :=
               (yrange_km s * fa - xrange_km s) / 2 / km_per_deg_lon s in
             [a - add_deg; b + add_deg; c; d]
           else
             let add_deg :=
               (xrange_km s / fa - yrange_km s) / 2 / km_per_deg_lat s in
             [a; b; c - add_deg; d + add_deg]))).
Proof.
  intros E. unfold _adjustminmax. rewrite E.
  destruct (Qgtb fa (plot_aspect s)); reflexivity.
Qed.

(** On a tuple the first item assignment raises. *)
Lemma adjust_tuple (s : t) (fa : Q) :
  kind (map_extent s) = PyTuple ->
  List.length (items (map_extent s)) = 4%nat ->
  _adjustminmax cosd s fa = Raise TypeError.
Proof.
  intros Hk Hl. unfold _adjustminmax, getitem, setitem. rewrite Hk.
  destruct (items (map_extent s)) as [| a [| b [| c [| d l]]]];
    try discriminate.
  destruct (Qgtb fa (plot_aspect s)); reflexivity.
Qed.

Lemma valid_is_four (s : t) :
  valid_extents s ->
  exists a b c d, items (map_extent s) = [a; b; c; d].
Proof.
  intros (Hl & _).
  destruct (items (map_extent s)) as [| a [| b [| c [| d [| e l]]]]];
    try discriminate.
  now exists a, b, c, d.
Qed.

Hypothesis cosd_proper : Proper (Qeq ==> Qeq) cosd.

(** The adjustment on a valid list extent and for a positive figure
    aspect: which items move, by how much, and what holds after it. *)
Lemma adjust_spec (s : t) (a b c d fa : Q) :
  map_extent s = mkseq PyList [a; b; c; d] ->
  valid_extents s -> 0 < fa ->
  exists m add_deg,
    _adjustminmax cosd s fa = Ok (set_map_extent s m) /\ 0 <= add_deg /\
    m = mkseq PyList
          (if Qgtb fa (plot_aspect s)
           then [a - add_deg; b + add_deg; c; d]
           else [a; b; c - add_deg; d + add_deg]) /\
    km_per_deg_lon (set_map_extent s m) == km_per_deg_lon s /\
    valid_extents (set_map_extent s m) /\
    plot_aspect (set_map_extent s m) == fa.
Proof.
  intros E Hv Hfa.
  pose proof (valid_ranges s Hv) as (Hkl & Hlr & Har & Hdr & HX & HY).
  pose proof Hv as (_ & Hk & Hc & Hlon & Hlat & Hd).
  rewrite (adjust_list s a b c d fa E).
  unfold MapCrossSection.valid_extents, MapCrossSection.plot_aspect,
    MapCrossSection.xrange_km, MapCrossSection.yrange_km,
    MapCrossSection.lonrange_km, latrange_km,
    MapCrossSection.km_per_deg_lon, lonrange, latrange, depthrange,
    lon_min, lon_max, lat_min, lat_max, depth_min, depth_max in *.
  rewrite E in *. cbn [items nth] in *.
  set (dr := nth 1 (items (depth_extent s)) 0
             - nth 0 (items (depth_extent s)) 0) in *.
  set (kl := km_per_deg_lat s) in *.
  set (C := cosd ((c + d) / 2)) in *.
  destruct (Qgtb fa (((b - a) * (kl * C) + dr) / ((d - c) * kl + dr))) eqn:G.
  - apply Qgtb_true in G. apply Qdiv_lt_mult in G; [| exact HY].
    set (add := (((d - c) * kl + dr) * fa - ((b - a) * (kl * C) + dr))
                / 2 / (kl * C)).
    exists (mkseq PyList [a - add; b + add; c; d]), add.
    cbn [set_map_extent map_extent depth_extent km_per_deg_lat items kind
         nth List.length].
    fold kl C dr.
    assert (Hadd : 0 < add).
    { subst add. apply Qdiv_pos; [| exact Hkl].
      apply Qdiv_pos; lra. }
    assert (Eadd : add * (kl * C) * 2
                   == ((d - c) * kl + dr) * fa - ((b - a) * (kl * C) + dr)).
    { subst add. field. lra. }
    assert (EX : (b + add - (a - add)) * (kl * C) + dr
                 == ((d - c) * kl + dr) * fa).
    { setoid_replace (((d - c) * kl + dr) * fa)
        with ((b - a) * (kl * C) + dr + add * (kl * C) * 2)
        by (rewrite Eadd; ring).
      ring. }
    repeat split; try reflexivity; try assumption; try lra.
    rewrite EX. field. lra.
  - apply Qgtb_false in G. apply Qdiv_le_mult in G; [| exact HY].
    set (add := (((b - a) * (kl * C) + dr) / fa - ((d - c) * kl + dr))
                / 2 / kl).
    exists (mkseq PyList [a; b; c - add; d + add]), add.
    cbn [set_map_extent map_extent depth_extent km_per_deg_lat items kind
         nth List.length].
    fold kl dr.
    assert (EC : cosd ((c - add + (d + add)) / 2) == C).
    { subst C. apply cosd_proper. field. }
    assert (Hq : (d - c) * kl + dr <= ((b - a) * (kl * C) + dr) / fa).
    { apply Qle_shift_div_l; [exact Hfa | lra]. }
    assert (Hadd : 0 <= add).
    { subst add. apply Qle_shift_div_l; [exact Hk |].
      apply Qle_shift_div_l; lra. }
    assert (Eadd : add * kl * 2
                   == ((b - a) * (kl * C) + dr) / fa - ((d - c) * kl + dr)).
    { subst add. field. split; lra. }
    assert (EY : (d + add - (c - add)) * kl + dr
                 == ((b - a) * (kl * C) + dr) / fa).
    { setoid_replace (((b - a) * (kl * C) + dr) / fa)
        with ((d - c) * kl + dr + add * kl * 2)
        by (rewrite Eadd; ring).
      ring. }
    rewrite !EC, EY.
    repeat split; try reflexivity; try assumption; try lra.
    field. split; lra.
Qed.

Lemma set_map_extent_same (s : t) : s = set_map_extent s (map_extent s).
Proof. now destruct s. Qed.

(** What is known of [self] when the scale factors are computed. *)
Lemma adjusted_spec (s s' : t) (fa : Q) (fill : bool) :
  valid_extents s -> 0 < fa ->
  (if fill then _adjustminmax cosd s fa else Ok s) = Ok s' ->
  valid_extents s' /\ (exists m, s' = set_map_extent s m) /\
  (fill = true -> plot_aspect s' == fa).
Proof.
  intros Hv Hfa H. destruct fill.
  - destruct (valid_is_four s Hv) as (a & b & c & d & E).
    destruct (map_extent s) as [k l] eqn:Em. simpl in E. subst l.
    destruct k.
    + destruct (adjust_spec s a b c d fa Em Hv Hfa)
        as (m & add & Ha & _ & _ & _ & Hv' & Hp).
      rewrite Ha in H. injection H as <-.
      split; [exact Hv' | split; [now exists m | intros _; exact Hp]].
    + rewrite adjust_tuple in H; [discriminate | |]; now rewrite Em.
  - injection H as <-.
    split; [exact Hv | split; [| discriminate]].
    exists (map_extent s). apply set_map_extent_same.
Qed.

Lemma adjusted_total (s : t) (fa : Q) (fill : bool) :
  valid_extents s -> 0 < fa ->
  fill = false \/ kind (map_extent s) = PyList ->
  exists s', (if fill then _adjustminmax cosd s fa else Ok s) = Ok s'.
Proof.
  intros Hv Hfa H. destruct fill; [| now exists s].
  destruct H as [H | H]; [discriminate |].
  destruct (valid_is_four s Hv) as (a & b & c & d & E).
  destruct (map_extent s) as [k l] eqn:Em. simpl in E, H. subst l k.
  destruct (adjust_spec s a b c d fa Em Hv Hfa) as (m & add & Ha & _).
  eauto.
Qed.

(** The scale factors of a layout that reached them. *)
Lemma scales_spec (s : t) (fig : Figure) (fill : bool) (k : scales) :
  valid_extents s -> valid_figure s fig ->
  _make_rects_scales cosd s fig fill = Ok k ->
  valid_extents (adjusted k) /\
  (exists m, adjusted k = set_map_extent s m) /\
  fig_inches_x k = fst (size_inches fig) /\
  fig_inches_y k = snd (size_inches fig) /\
  fig_xrange k = fst (size_inches fig) - pad_left s - pad_right s /\
  inch_per_km_x k == inch_per_km_y k /\
  0 < inch_per_km_x k /\
  (fill = true ->
   inch_per_km_x k == fig_xrange k / xrange_km (adjusted k)).
Proof.
  intros Hv (Hix & Hiy & Hfx & Hfy) H.
  unfold _make_rects_scales in H.
  destruct (size_inches fig) as [ix iy]. simpl in Hix, Hiy, Hfx, Hfy.
  set (fx := ix - pad_left s - pad_right s) in *.
  set (fy := iy - pad_top s - pad_bottom s) in *.
  pose proof (Qdiv_pos fx fy Hfx Hfy) as Hfa.
  destruct (if fill then _adjustminmax cosd s (fx / fy) else Ok s)
    as [s' |] eqn:Ea; [| discriminate].
  destruct (adjusted_spec s s' (fx / fy) fill Hv Hfa Ea) as (Hv' & Hm & Hp).
  pose proof (valid_ranges s' Hv') as (_ & _ & _ & _ & HX & HY).
  pose proof (adjusted_scales_equal (xrange_km s') (yrange_km s') fx fy
                HX HY Hfx Hfy) as HS.
  cbv zeta in HS. cbn [rbind] in H.
  unfold MapCrossSection.plot_aspect in H, Hp.
  destruct (Qgtb (xrange_km s' / yrange_km s') (fx / fy)) eqn:E1;
    [| destruct (Qltb (xrange_km s' / yrange_km s') (fx / fy)) eqn:E2];
    injection H as <-; cbn [adjusted fig_inches_x fig_inches_y fig_xrange
                            inch_per_km_x inch_per_km_y fst snd] in *;
    destruct HS as [HS1 HS2];
    refine (conj Hv' (conj Hm (conj eq_refl (conj eq_refl (conj eq_refl
              (conj HS1 (conj HS2 _)))))));
    intros Hfill; specialize (Hp Hfill).
  - apply Qgtb_true in E1. lra.
  - apply Qltb_true in E2. lra.
  - reflexivity.
Qed.

Lemma scales_total (s : t) (fig : Figure) (fill : bool) :
  valid_extents s -> valid_figure s fig ->
  fill = false \/ kind (map_extent s) = PyList ->
  exists k, _make_rects_scales cosd s fig fill = Ok k.
Proof.
  intros Hv (Hix & Hiy & Hfx & Hfy) H.
  unfold _make_rects_scales.
  destruct (size_inches fig) as [ix iy]. simpl in Hfx, Hfy.
  destruct (adjusted_total s _ fill Hv (Qdiv_pos _ _ Hfx Hfy) H) as (s' & ->).
  cbn [rbind].
  match goal with
  | |- context [let '(_, _) := ?p in _] => destruct p
  end.
  eauto.
Qed.


Lemma Qltb_irrefl (x y : Q) : x == y -> Qltb x y = false.
Proof. intros E. apply Qltb_false. lra. Qed.


End Layout.

Lemma cosd_proper : Proper (Qeq ==> Qeq) Libraries.cosd.
Proof. intros x y E. unfold Libraries.cosd. now rewrite E. Qed.



(** X6: fill-figure mode on an extent of four items held in a tuple: the
    layout raises [TypeError] before it has any scale factor. *)
Lemma fill_figure_raises_on_tuple (cosd : Q -> Q) (s : t) (fig : Figure) :
  List.length (items (map_extent s)) = 4%nat ->
  kind (map_extent s) = PyTuple ->
  _make_rects cosd s fig true = Raise TypeError.
Proof.
  intros Hl Hk. unfold _make_rects, _make_rects_scales.
  destruct (size_inches fig) as [ix iy].
  now rewrite (adjust_tuple cosd s _ Hk Hl).
Qed.

(** C2, at an input that breaks it: a map with cross-sections made from
    samples in fill-figure mode (the default of the constructor).  The
    extent computed from the samples is a tuple, its range is positive on
    both axes, and the constructor raises [TypeError] where the extent
    should be expanded: no bound is moved and no aspect is matched. *)
Theorem fill_figure_raises_on_sample_extent :
  _get_map_extent None (Some [-12.9; -12.7]) (Some [45.2; 45.6]) 0.2
    = Ok (mkseq PyTuple [45.1200; 45.6800; -12.9400; -12.6600]) /\
  fst (__init__ Libraries.cosd true 0.6 0.6 0.4 0.4 None None 0.2
         (Some [-12.9; -12.7]) (Some [45.2; 45.6]) (Some [10; 35]) true None
         Libraries.fresh_pyplot) = Raise TypeError /\
  exists mcs,
    fst (__init__ Libraries.cosd true 0.6 0.6 0.4 0.4
           (Some (mkseq PyList [45.1200; 45.6800; -12.9400; -12.6600])) None 0.2
           None None (Some [10; 35]) true None Libraries.fresh_pyplot)
    = Ok mcs.
Proof.
  split; [vm_compute; reflexivity |].
  split; [vm_compute; reflexivity |].
  eexists. vm_compute. reflexivity.
Qed.
End LayoutProps.

(** ** The shapes ([Circle], [Polygon]) *)
Module ShapeProps.
Import ShapeSelection.

Section Circle.
Variable gps2dist_azimuth : Q -> Q -> Q -> Q -> Q.

(** The distance of a point from itself is zero. *)
Hypothesis dist_same_point :
  forall lat lon, gps2dist_azimuth lat lon lat lon == 0.

Lemma circle_contains_eq (clon clat r elon elat : Q) :
  Circle_contains gps2dist_azimuth
    (mkCircle (VNum clon) (VNum clat) (VNum r)) elon elat =
  Ok (Qle_bool (gps2dist_azimuth elat elon clat clon / (1852 * 60)) r).
Proof. reflexivity. Qed.

(** C6: [Circle.contains(lon, lat)] is true exactly when the distance in
    metres between the point and the centre, divided by 1852 * 60, is at
    most the radius; the centre is contained for every positive radius; a
    point whose distance exceeds the radius is not contained; for the
    circle of radius 0.1 around (45.3, -12.8) the centre is contained,
    and (46.0, -12.8) is not since its distance exceeds 0.1 degrees. *)
Theorem circle_contains (clon clat r elon elat : Q) :
  let c := mkCircle (VNum clon) (VNum clat) (VNum r) in
  let degrees := gps2dist_azimuth elat elon clat clon / (1852 * 60) in
  (exists b, Circle_contains gps2dist_azimuth c elon elat = Ok b /\
             (b = true <-> degrees <= r)) /\
  (0 < r -> Circle_contains gps2dist_azimuth c clon clat = Ok true) /\
  (r < degrees -> Circle_contains gps2dist_azimuth c elon elat = Ok false) /\
  let c0 := mkCircle (VNum 45.3) (VNum (-12.8)) (VNum 0.1) in
  Circle_contains gps2dist_azimuth c0 45.3 (-12.8) = Ok true /\
  (0.1 < gps2dist_azimuth (-12.8) 46.0 (-12.8) 45.3 / (1852 * 60) ->
   Circle_contains gps2dist_azimuth c0 46.0 (-12.8) = Ok false).
Proof.
  intros c degrees. subst c degrees.
  assert (Hcentre : forall lon lat rad,
             0 < rad ->
             Circle_contains gps2dist_azimuth
               (mkCircle (VNum lon) (VNum lat) (VNum rad)) lon lat = Ok true).
  { intros lon lat rad Hr. rewrite circle_contains_eq. f_equal.
    apply Qle_bool_iff. rewrite dist_same_point.
    unfold Qdiv. rewrite Qmult_0_l. lra. }
  assert (Hfar : forall lon lat rad x y,
             rad < gps2dist_azimuth y x lat lon / (1852 * 60) ->
             Circle_contains gps2dist_azimuth
               (mkCircle (VNum lon) (VNum lat) (VNum rad)) x y = Ok false).
  { intros lon lat rad x y H. rewrite circle_contains_eq. f_equal.
    destruct (Qle_bool _ rad) eqn:E; [| reflexivity].
    apply Qle_bool_iff in E. lra. }
  split; [| split; [| split; [| split]]].
  - eexists. split; [apply circle_contains_eq |]. apply Qle_bool_iff.
  - apply Hcentre.
  - apply Hfar.
  - apply Hcentre. reflexivity.
  - apply Hfar.
Qed.
End Circle.

Lemma grid_dist_same_point (lat lon : Q) : Libraries.grid_dist lat lon lat lon == 0.
Proof.
  unfold Libraries.grid_dist.
  assert (E1 : lat - lat == 0) by ring.
  assert (E2 : lon - lon == 0) by ring.
  rewrite E1, E2. reflexivity.
Qed.

Lemma circle_contains_witness :
  let c := mkCircle (VNum 45.3) (VNum (-12.8)) (VNum 0.1) in
  let degrees := Libraries.grid_dist (-12.8) 46.0 (-12.8) 45.3 / (1852 * 60) in
  (exists b, Circle_contains Libraries.grid_dist c 46.0 (-12.8) = Ok b /\
             (b = true <-> degrees <= 0.1)) /\
  (0 < 0.1 -> Circle_contains Libraries.grid_dist c 45.3 (-12.8) = Ok true) /\
  (0.1 < degrees -> Circle_contains Libraries.grid_dist c 46.0 (-12.8) = Ok false) /\
  let c0 := mkCircle (VNum 45.3) (VNum (-12.8)) (VNum 0.1) in
  Circle_contains Libraries.grid_dist c0 45.3 (-12.8) = Ok true /\
  (0.1 < Libraries.grid_dist (-12.8) 46.0 (-12.8) 45.3 / (1852 * 60) ->
   Circle_contains Libraries.grid_dist c0 46.0 (-12.8) = Ok false).
Proof.
  apply (circle_contains Libraries.grid_dist grid_dist_same_point
           45.3 (-12.8) 0.1 46.0 (-12.8)).
Defined.

(** C7 as stated fails: a circle of radius -1, a circle of radius 0, a
    polygon of two vertices and a polygon of none are constructed without
    an error. *)
Lemma degenerate_shapes_constructed :
  -1 <= 0 /\
  Circle__init__ [VNum 45.3; VNum (-12.8); VNum (-1)]
    = Ok (mkCircle (VNum 45.3) (VNum (-12.8)) (VNum (-1))) /\
  Circle__init__ [VNum 45.3; VNum (-12.8); VNum 0]
    = Ok (mkCircle (VNum 45.3) (VNum (-12.8)) (VNum 0)) /\
  (List.length [[45.3; -12.8]; [45.5; -12.8]]%Q < 3)%nat /\
  Polygon__init__ [[45.3; -12.8]; [45.5; -12.8]]
    = Ok (mkPolygon [[45.3; -12.8]; [45.5; -12.8]]) /\
  Polygon__init__ [] = Ok (mkPolygon []).
Proof.
  repeat split; try reflexivity; try discriminate.
  simpl. lia.
Qed.

(** C7, amended: the constructors check nothing.  A circle is constructed
    from any longitude, latitude and radius and stores the radius as given,
    positive or not; a polygon is constructed from any vertex list and
    stores it as given, whatever its length. *)
Theorem shapes_constructed_unchecked :
  (forall longitude latitude radius,
     Circle__init__ [longitude; latitude; radius]
     = Ok (mkCircle longitude latitude radius)) /\
  (forall vertices, Polygon__init__ vertices = Ok (mkPolygon vertices)).
Proof. split; reflexivity. Qed.
End ShapeProps.


(** ** The plotter ([HypoDDPlotter]) *)
Module PlotterProps.
Import Pyplot Catalog HypoDDPlotter.

(** The cluster id is read from the first comment that names a cluster, and
    is 0 when no comment does. *)
Lemma cluster_id_first (pre post : list Comment) (c : Comment) (t : string) :
  Forall (fun c => names_cluster c = false) pre ->
  text c = Some t -> names_cluster c = true ->
  cluster_id (pre ++ c :: post) = Str.py_int (Str.last_field t).
Proof.
  intros Hpre Ht Hc. induction Hpre as [| x pre Hx _ IH]; simpl.
  - unfold names_cluster in Hc. rewrite Ht in *. now rewrite Hc.
  - unfold names_cluster in Hx. destruct (text x) as [tx |]; [| exact IH].
    now rewrite Hx.
Qed.

Lemma cluster_id_none (cs : list Comment) :
  Forall (fun c => names_cluster c = false) cs -> cluster_id cs = Ok 0%Z.
Proof.
  intros H. induction H as [| x cs Hx _ IH]; simpl; [reflexivity |].
  unfold names_cluster in Hx. destruct (text x) as [tx |]; [| exact IH].
  now rewrite Hx.
Qed.

(** Inside the palette, the colour map and indexing modulo the palette size
    agree. *)
Lemma listed_cmap_in_range (k : Z) :
  (0 <= k < 12)%Z ->
  Libraries.listed_cmap Libraries.Paired k
  = Libraries.palette_mod Libraries.Paired k.
Proof.
  intros H.
  assert (E : (k = 0 \/ k = 1 \/ k = 2 \/ k = 3 \/ k = 4 \/ k = 5 \/ k = 6
               \/ k = 7 \/ k = 8 \/ k = 9 \/ k = 10 \/ k = 11)%Z) by lia.
  repeat (destruct E as [-> | E]; [reflexivity |]). now subst.
Qed.

Section Colors.
Variable color_invalid : rgba.
Variable cmap : Z -> rgba.

Lemma event_color_eq (event : Event) (o : Origin) :
  last_origin event = Ok o ->
  event_color color_invalid cmap event =
  if is_hypodd o
  then rbind (cluster_id (comments o)) (fun c => Ok (cmap c))
  else Ok color_invalid.
Proof.
  intros Ho. unfold event_color, is_hypodd. rewrite Ho. simpl.
  destruct (method_id o) as [m |]; [| reflexivity].
  now destruct (Str.contains "HYPODD" (Str.upper m)).
Qed.

(** C8, amended: an event whose relocated (last) origin has a method id
    containing HYPODD (in any case) gets the colour [cmap(cluster_id)], where
    [cluster_id] is the integer after the last colon of the first comment
    that contains "HypoDD cluster id", and gets [cmap(0)] when no comment
    contains it; an event whose last origin has no method id, or one without
    HYPODD, gets the reserved colour. *)
Theorem event_color_spec (event : Event) (o : Origin) :
  last_origin event = Ok o ->
  (is_hypodd o = true ->
   (forall pre c post t k,
      comments o = pre ++ c :: post ->
      Forall (fun c => names_cluster c = false) pre ->
      text c = Some t -> names_cluster c = true ->
      Str.py_int (Str.last_field t) = Ok k ->
      event_color color_invalid cmap event = Ok (cmap k)) /\
   (Forall (fun c => names_cluster c = false) (comments o) ->
    event_color color_invalid cmap event = Ok (cmap 0%Z))) /\
  (is_hypodd o = false ->
   event_color color_invalid cmap event = Ok color_invalid).
Proof.
  intros Ho. rewrite (event_color_eq event o Ho). split.
  - intros ->. split.
    + intros pre c post t k -> Hpre Ht Hc Hk.
      now rewrite (cluster_id_first pre post c t Hpre Ht Hc), Hk.
    + intros Hn. now rewrite (cluster_id_none _ Hn).
  - now intros ->.
Qed.
End Colors.

Lemma event_color_spec_witness :
  let o := mkOrigin (-12.81) 45.31 31000 (Some "smi:local/HypoDD"%string)
             [mkComment None; mkComment (Some "HypoDD cluster id: 3"%string)] in
  let event := mkEvent [mkOrigin (-12.80) 45.30 30000 None []; o]
                       [mkMagnitude 2.5] in
  (is_hypodd o = true ->
   (forall pre c post t k,
      comments o = pre ++ c :: post ->
      Forall (fun c => names_cluster c = false) pre ->
      text c = Some t -> names_cluster c = true ->
      Str.py_int (Str.last_field t) = Ok k ->
      event_color Libraries.grey (Libraries.listed_cmap Libraries.Paired) event
      = Ok (Libraries.listed_cmap Libraries.Paired k)) /\
   (Forall (fun c => names_cluster c = false) (comments o) ->
    event_color Libraries.grey (Libraries.listed_cmap Libraries.Paired) event
    = Ok (Libraries.listed_cmap Libraries.Paired 0%Z))) /\
  (is_hypodd o = false ->
   event_color Libraries.grey (Libraries.listed_cmap Libraries.Paired) event
   = Ok Libraries.grey).
Proof.
  intros o event.
  apply (event_color_spec Libraries.grey
           (Libraries.listed_cmap Libraries.Paired) event o).
  reflexivity.
Defined.

(** C8 as stated fails.  With the grey of matplotlib and its colour map
    "Paired" of 12 colours: a HypoDD event of cluster 12 gets the last colour
    of the palette, not the colour at index 12 mod 12; a HypoDD event without
    a cluster comment gets the first colour of the palette, not the reserved
    grey; and for a HypoDD event whose cluster comment holds no integer no
    colour is assigned at all, [int] raises [ValueError]. *)
Lemma event_color_not_modulo_nor_grey :
  let hypodd cs :=
    mkEvent [mkOrigin (-12.81) 45.31 31000 (Some "smi:local/HypoDD"%string)
                      (map mkComment cs)] [mkMagnitude 2.5] in
  let color := event_color Libraries.grey
                 (Libraries.listed_cmap Libraries.Paired) in
  color (hypodd [Some "HypoDD cluster id: 12"%string])
    = Ok (177, 89, 40, 255)%Z /\
  Libraries.palette_mod Libraries.Paired 12 = (166, 206, 227, 255)%Z /\
  color (hypodd []) = Ok (166, 206, 227, 255)%Z /\
  Libraries.grey = (128, 128, 128, 255)%Z /\
  color (hypodd [Some "HypoDD cluster id: n/a"%string]) = Raise ValueError.
Proof. repeat split. Qed.

Section Plotter.
Variable color_invalid : rgba.
Variable cmap : Z -> rgba.
Variable gps2dist_azimuth : Q -> Q -> Q -> Q -> Q.
Variable contains_point : list (list Q) -> Q * Q -> result bool.
Variables cosd sind : Q -> Q.

Abbreviation plot_events :=
  (plot_events color_invalid cmap gps2dist_azimuth contains_point cosd sind).

(** C10, amended: a call of [plot_events] with a circle that is a non-empty
    list raises [TypeError], whatever the polygon, and leaves pyplot as it
    was: no figure is made and no file is written. *)
Theorem plot_events_circle_raises (s : t) (file_base : option string)
    (x : Q) (rest : list Q) (polygon : option (list (list Q)))
    (coastlines : option string) (st : state) :
  plot_events s file_base (Some (x :: rest)) polygon coastlines st
  = (Raise TypeError, st).
Proof. reflexivity. Qed.
End Plotter.

(** *** Running the monad *)

Lemma bind_run {A B} (m : M A) (k : A -> M B) (s s' : state) (a : A) :
  m s = (Ok a, s') -> bind m k s = k a s'.
Proof. intros E. unfold bind. now rewrite E. Qed.

Lemma steady_ret {A} (a : A) (P : A -> Prop) : P a -> steady (ret a) P.
Proof. intros H s. exists a, s. repeat split; assumption. Qed.

Lemma steady_bind {A B} (m : M A) (k : A -> M B) (P : A -> Prop)
    (R : B -> Prop) :
  steady m P -> (forall a, P a -> steady (k a) R) -> steady (bind m k) R.
Proof.
  intros Hm Hk s.
  destruct (Hm s) as (a & s1 & E1 & Pa & F1 & C1 & A1).
  destruct (Hk a Pa s1) as (b & s2 & E2 & Rb & F2 & C2 & A2).
  exists b, s2. rewrite (bind_run m k s s1 a E1).
  repeat split; try assumption; congruence.
Qed.

Lemma map_update_nth {A B} (g : A -> B) (f : A -> A) (l : list A) (i : nat) :
  (forall a, g (f a) = g a) -> map g (update_nth l i f) = map g l.
Proof.
  intros H. revert i. induction l as [| h l IH]; intros [| i]; simpl;
    try reflexivity.
  - now rewrite H.
  - now rewrite IH.
Qed.

(** Drawing into axes, labelling them and adding a feature keep the frames. *)
Lemma steady_on_axes (ax : nat) (f : Axes -> Axes) :
  (forall a, frame (f a) = frame a) ->
  steady (on_axes ax f) (fun _ => True).
Proof.
  intros H s. exists tt. eexists. split; [reflexivity |].
  repeat split. simpl. now apply map_update_nth.
Qed.

Lemma steady_print (line : string) : steady (print line) (fun _ => True).
Proof. intros s. exists tt. eexists. split; [reflexivity |]. now repeat split. Qed.

Lemma frame_add_artist (art : Artist) (a : Axes) :
  frame (add_artist art a) = frame a.
Proof. reflexivity. Qed.

Lemma frame_add_feature (n : string) (a : Axes) :
  frame (add_feature n a) = frame a.
Proof. reflexivity. Qed.

Lemma frame_with_xlabel (l : string) (a : Axes) :
  frame (with_xlabel l a) = frame a.
Proof. reflexivity. Qed.

Lemma frame_with_ylabel (l : string) (a : Axes) :
  frame (with_ylabel l a) = frame a.
Proof. reflexivity. Qed.

Create HintDb frames.
#[local] Hint Resolve frame_add_artist frame_add_feature frame_with_xlabel
  frame_with_ylabel : frames.

Lemma steady_plot_2D (s : t) (ax : nat) (xs ys : list Q)
    (tr : option transform) :
  steady (_plot_2D s ax xs ys tr) (fun _ => True).
Proof.
  unfold _plot_2D. destruct (replace_scatter_with_plot s);
    (eapply steady_bind; [apply steady_on_axes; auto with frames |]);
    intros _ _; apply steady_on_axes; auto with frames.
Qed.

(** *** The outline of a shape *)

Lemma column_ok (p : list (list Q)) (i : nat) :
  Forall (fun v => (S i <= List.length v)%nat) p ->
  exists xs, ShapeSelection.column p i = Ok xs.
Proof.
  intros H. induction H as [| v p Hv _ (xs & IH)]; simpl.
  - now exists [].
  - unfold ShapeSelection.item.
    destruct (nth_error v i) as [x |] eqn:E.
    + simpl. rewrite IH. simpl. eauto.
    + apply nth_error_None in E. lia.
Qed.

Lemma list_Qeqb_refl (v : list Q) : ShapeSelection.list_Qeqb v v = true.
Proof.
  induction v as [| x v IH]; simpl; [reflexivity |].
  rewrite IH, andb_true_r. apply Qeq_bool_iff. reflexivity.
Qed.

Section Shapes.
Variables cosd sind : Q -> Q.

Lemma steady_shape_plot (sh : ShapeSelection.Shape) (ax : nat)
    (linestyle : option string) (linewidth : option Q) (tr : transform) :
  ShapeSelection.drawable sh ->
  steady (ShapeSelection.plot cosd sind sh ax linestyle linewidth tr)
         ShapeSelection.drawable.
Proof.
  intros Hd. destruct sh as [c | p]; simpl in *.
  - destruct Hd as (lon & lat & r & ->).
    eapply steady_bind; [| intros a _; apply steady_ret].
    + unfold ShapeSelection.Circle_plot. simpl.
      unfold bind, lift. simpl.
      apply steady_on_axes; auto with frames.
    + now exists lon, lat, r.
  - destruct Hd as (Hne & Hall).
    destruct (ShapeSelection.polygon p) as [| v vs] eqn:Ep; [congruence |].
    set (closed := if negb (ShapeSelection.list_Qeqb v (last (v :: vs) v))
                   then (v :: vs) ++ [v] else v :: vs).
    assert (Hc : Forall (fun v => (2 <= List.length v)%nat) closed).
    { subst closed. destruct (negb _); [| exact Hall].
      apply Forall_app. split; [exact Hall |].
      constructor; [now inversion Hall | constructor]. }
    assert (Hn : closed <> []).
    { subst closed. destruct (negb _); discriminate. }
    destruct (column_ok closed 0) as (xs & Ex).
    { eapply Forall_impl; [| exact Hc]. simpl. intros; lia. }
    destruct (column_ok closed 1 Hc) as (ys & Ey).
    intros s. unfold ShapeSelection.Polygon_plot, bind, lift.
    rewrite Ep. fold closed. rewrite Ex, Ey.
    eexists. eexists. split; [reflexivity |].
    split; [simpl; split; assumption |].
    repeat split. simpl. apply map_update_nth. auto with frames.
Qed.
End Shapes.

(** *** The extents of the two figures *)

Lemma spread_min_max (xs : list Q) :
  spread xs ->
  exists lo hi, py_min xs = Ok lo /\ py_max xs = Ok hi /\ lo < hi.
Proof.
  intros (a & b & Ha & Hb & Hab).
  assert (Hne : xs <> []) by (intros ->; inversion Ha).
  destruct (py_min_spec xs Hne) as (lo & El & _ & Hlo).
  destruct (py_max_spec xs Hne) as (hi & Eh & _ & Hhi).
  exists lo, hi. repeat split; try assumption.
  specialize (Hlo a Ha). specialize (Hhi b Hb). lra.
Qed.

Lemma buffered_increasing (lo hi b : Q) :
  lo < hi -> 0 <= b -> lo - (hi - lo) * b < hi + (hi - lo) * b.
Proof.
  intros H Hb.
  assert (0 <= (hi - lo) * b) by (apply Qmult_le_0_compat; lra).
  lra.
Qed.

(** In a valid configuration the map extent is computed, and handing the
    result back as an explicit extent returns it again. *)
Lemma map_config_extent (me : option pyseq) (lats lons : list Q) (b : Q) :
  valid_map_config me lats lons -> 0 <= b ->
  exists m,
    MapCrossSection._get_map_extent me (Some lats) (Some lons) b = Ok m /\
    forall lats' lons' b',
      MapCrossSection._get_map_extent (Some m) lats' lons' b' = Ok m.
Proof.
  unfold valid_map_config, MapCrossSection._get_map_extent.
  intros H Hb. destruct (if_truthy me) as [e |] eqn:Et.
  - destruct H as (x0 & x1 & y0 & y1 & Ei & Hx & Hy).
    assert (Ee : if_truthy (Some e) = Some e) by (simpl; now rewrite Ei).
    exists e. unfold getitem. rewrite Ee, Ei. simpl.
    apply Qgtb_true in Hx, Hy. rewrite Hx, Hy. simpl. now split.
  - destruct H as (Hlon & Hlat).
    destruct (spread_min_max lons Hlon) as (lo & hi & -> & -> & Hx).
    destruct (spread_min_max lats Hlat) as (lo' & hi' & -> & -> & Hy).
    simpl. eexists. split; [reflexivity |].
    intros lats' lons' b'. unfold getitem. simpl.
    pose proof (buffered_increasing lo hi b Hx Hb) as Bx.
    pose proof (buffered_increasing lo' hi' b Hy Hb) as By.
    apply Qgtb_true in Bx, By. rewrite Bx, By. reflexivity.
Qed.

Lemma depth_config_extent (de : option pyseq) (depths : list Q) (b : Q) :
  valid_depth_config de depths -> 0 <= b ->
  exists d,
    MapCrossSection._get_depth_extent de (Some depths) b = Ok d /\
    forall depths' b',
      MapCrossSection._get_depth_extent (Some d) depths' b' = Ok d.
Proof.
  unfold valid_depth_config, MapCrossSection._get_depth_extent.
  intros H Hb. destruct (if_truthy de) as [e |] eqn:Et.
  - destruct H as (z0 & z1 & rest & Ei & Hz).
    assert (Ee : if_truthy (Some e) = Some e) by (simpl; now rewrite Ei).
    exists e. unfold getitem. rewrite Ee, Ei. simpl.
    apply Qgtb_true in Hz. rewrite Hz. simpl. now split.
  - destruct (spread_min_max depths H) as (lo & hi & -> & -> & Hz).
    simpl. eexists. split; [reflexivity |].
    intros depths' b'. unfold getitem. simpl.
    pose proof (buffered_increasing lo hi b Hz Hb) as Bz.
    apply Qgtb_true in Bz. rewrite Bz. reflexivity.
Qed.

Section Figures.
Variable cosd : Q -> Q.

(** Without fill-figure mode [_make_rects] returns, and leaves [self] as it
    is. *)
Lemma make_rects_nofill (s : MapCrossSection.t) (fig : Figure) :
  exists r, MapCrossSection._make_rects cosd s fig false = Ok (s, r).
Proof.
  unfold MapCrossSection._make_rects, MapCrossSection._make_rects_scales.
  destruct (size_inches fig) as [ix iy]. cbn [rbind].
  match goal with
  | |- context [let '(_, _) := ?p in _] => destruct p
  end.
  cbn [rbind MapCrossSection.adjusted]. eauto.
Qed.

(** What the constructor does to pyplot when it does not fill the figure:
    a fresh figure of the default size with the three axes of the extents
    computed, and nothing written. *)
Lemma init_run (pl pr pt pb : Q) (me de : option pyseq) (b : Q)
    (lats lons deps : option (list Q)) (grid : bool) (coast : option string)
    (m d : pyseq) (st : state) :
  MapCrossSection._get_map_extent me lats lons b = Ok m ->
  MapCrossSection._get_depth_extent de deps b = Ok d ->
  exists mcs st' r,
    MapCrossSection.__init__ cosd false pl pr pt pb me de b lats lons deps
      grid coast st = (Ok mcs, st') /\
    MapCrossSection.map_extent (MapCrossSection.self mcs) = m /\
    MapCrossSection.depth_extent (MapCrossSection.self mcs) = d /\
    files st' = files st /\ rc_figsize st' = rc_figsize st /\
    MapCrossSection._make_rects cosd
      (MapCrossSection.mk ((1852 # 1000) * 60) m d pl pr pt pb
         (MapCrossSection.checked_coastlines coast))
      (mkFigure (rc_figsize st) []) false
    = Ok (MapCrossSection.mk ((1852 # 1000) * 60) m d pl pr pt pb
            (MapCrossSection.checked_coastlines coast), r) /\
    map frame (axes (gcf st')) = MapCrossSection.frames_of m d r.
Proof.
  intros Em Ed.
  destruct (make_rects_nofill
              (MapCrossSection.mk ((1852 # 1000) * 60) m d pl pr pt pb
                 (MapCrossSection.checked_coastlines coast))
              (mkFigure (rc_figsize st) [])) as (r & Er).
  destruct r as [[rect_map rect_xz] rect_zy].
  unfold MapCrossSection.__init__, MapCrossSection.checked_coastlines in *.
  rewrite Em, Ed.
  destruct coast as [c |];
    [destruct (MapCrossSection.in_strings c MapCrossSection.NE_coast_resolutions
               || MapCrossSection.in_strings c
                    MapCrossSection.GSHSS_coast_resolutions) eqn:Ec |];
    unfold bind, lift, ret, print, figure, set_gcf; cbn [fst snd rc_figsize];
    rewrite Er;
    cbn [add_axes on_axes bind gcf axes size_inches set_gcf rc_figsize files
         stdout List.length app MapCrossSection.coastlines
         MapCrossSection.map_extent MapCrossSection.depth_extent].
  - destruct (MapCrossSection.in_strings c
                MapCrossSection.GSHSS_coast_resolutions);
      [| destruct (MapCrossSection.in_strings c
                     MapCrossSection.NE_coast_resolutions)];
      do 3 eexists; (split; [reflexivity |]); repeat split; reflexivity.
  - do 3 eexists. (split; [reflexivity |]). repeat split; reflexivity.
  - do 3 eexists. (split; [reflexivity |]). repeat split; reflexivity.
Qed.

Variable sind : Q -> Q.

(** One figure: [_plot_events] returns the extents computed, writes nothing,
    and leaves a figure whose frames are those of these extents. *)
Lemma plot_events_run (s : t) (pos : Positions) (shape : option ShapeSelection.Shape)
    (me de : option pyseq) (m d : pyseq) (st : state) :
  MapCrossSection._get_map_extent me (Some (latitudes pos))
    (Some (longitudes pos)) (2 # 10) = Ok m ->
  MapCrossSection._get_depth_extent de (Some (depths pos)) (2 # 10) = Ok d ->
  drawable_shape shape ->
  exists shape' st' r,
    _plot_events cosd sind s pos shape me de st = (Ok (shape', (m, d)), st') /\
    drawable_shape shape' /\
    files st' = files st /\ rc_figsize st' = rc_figsize st /\
    MapCrossSection._make_rects cosd
      (MapCrossSection.mk ((1852 # 1000) * 60) m d (6 # 10) (6 # 10) (4 # 10)
         (4 # 10) (MapCrossSection.checked_coastlines (coastlines s)))
      (mkFigure (rc_figsize st) []) false
    = Ok (MapCrossSection.mk ((1852 # 1000) * 60) m d (6 # 10) (6 # 10)
            (4 # 10) (4 # 10)
            (MapCrossSection.checked_coastlines (coastlines s)), r) /\
    map frame (axes (gcf st')) = MapCrossSection.frames_of m d r.
Proof.
  intros Em Ed Hsh.
  set (st0 := set_gcf (mkFigure (size_inches (gcf st)) []) st).
  destruct (init_run (6 # 10) (6 # 10) (4 # 10) (4 # 10) me de (2 # 10)
              (Some (latitudes pos)) (Some (longitudes pos))
              (Some (depths pos)) true (coastlines s) m d st0 Em Ed)
    as (mcs & st1 & r & E1 & Hm & Hd & F1 & C1 & Er & A1).
  unfold _plot_events.
  rewrite (bind_run clf _ st st0 tt eq_refl).
  rewrite (bind_run _ _ st0 st1 mcs E1).
  lazymatch goal with
  | |- exists _ _ _, ?tail st1 = _ /\ _ =>
      assert (Ht : steady tail
                     (fun res => snd res = (m, d) /\ drawable_shape (fst res)))
  end.
  { eapply steady_bind; [apply steady_plot_2D | intros _ _].
    eapply steady_bind with (P := drawable_shape).
    - destruct shape as [sh |].
      + eapply steady_bind;
          [apply steady_shape_plot; exact Hsh | intros sh' Hsh'].
        apply steady_ret. exact Hsh'.
      + apply steady_ret. exact I.
    - intros shape' Hs'.
      repeat (eapply steady_bind;
              [first [apply steady_plot_2D
                     | apply steady_on_axes; auto with frames]
              | intros _ _]).
      apply steady_ret. rewrite Hm, Hd. now split. }
  destruct (Ht st1) as ([shape' md] & st2 & E2 & (Hres & Hdr) & F2 & C2 & A2).
  simpl in Hres, Hdr. subst md.
  change (rc_figsize st0) with (rc_figsize st) in C1, Er.
  change (files st0) with (files st) in F1.
  exists shape', st2, r. rewrite E2.
  repeat split; try assumption; congruence.
Qed.
End Figures.

(** *** One invocation *)

Lemma extract_ok (events : list Event) :
  Forall usable_event events ->
  forall original relocated,
  exists o r, extract events original relocated = Ok (o, r).
Proof.
  intros H. induction H as [| e events (Ho & _) _ IH]; intros a b; simpl.
  - eauto.
  - unfold first_origin, last_origin.
    destruct (origins e) as [| o rest]; [congruence |]. simpl. apply IH.
Qed.

Lemma print_or_not (b : bool) (line : string) (st : state) :
  exists st',
    (if b then print line else ret tt) st = (Ok tt, st') /\
    files st' = files st /\ rc_figsize st' = rc_figsize st /\
    gcf st' = gcf st.
Proof. destruct b; eexists; (split; [reflexivity |]); now repeat split. Qed.

Section Invocation.
Variable color_invalid : rgba.
Variable cmap : Z -> rgba.
Variable gps2dist_azimuth : Q -> Q -> Q -> Q -> Q.
Variable contains_point : list (list Q) -> Q * Q -> result bool.
Variables cosd sind : Q -> Q.

Lemma plot_params_ok (events : list Event)
    (shape : option ShapeSelection.Shape) :
  Forall usable_event events -> usable_shape contains_point shape ->
  forall cs ms ins,
  exists p, plot_params color_invalid cmap gps2dist_azimuth contains_point
              events shape cs ms ins = Ok p.
Proof.
  intros H Hs. induction H as [| e events (Ho & Hm & Hk) _ IH];
    intros cs ms ins; simpl; [eauto |].
  unfold first_magnitude.
  destruct (Catalog.magnitudes e) as [| mg mgs]; [congruence |]. simpl.
  assert (Hl : exists o, last_origin e = Ok o).
  { unfold last_origin. destruct (origins e); [congruence | eauto]. }
  destruct Hl as (o & Eo).
  rewrite (event_color_eq color_invalid cmap e o Eo).
  assert (Hc : exists c, (if is_hypodd o
                          then rbind (cluster_id (comments o))
                                     (fun c => Ok (cmap c))
                          else Ok color_invalid) = Ok c).
  { destruct (is_hypodd o) eqn:Eh; [| eauto].
    destruct (Hk o Eo Eh) as (k & ->). simpl. eauto. }
  destruct Hc as (c & ->). simpl.
  destruct shape as [[ci | p] |]; simpl in *.
  - destruct Hs as ((lon & lat & r & ->) & _). rewrite Eo. simpl. apply IH.
  - destruct Hs as (_ & Hp). rewrite Eo. simpl.
    unfold ShapeSelection.Polygon_contains.
    destruct (Hp (longitude o, latitude o)) as (b & ->). simpl. apply IH.
  - apply IH.
Qed.

End Invocation.

Lemma three_events_usable : Forall usable_event Libraries.three_events.
Proof.
  repeat constructor; try discriminate;
    intros o H; injection H as <-; intros _; eexists; reflexivity.
Qed.



(** C10 as stated fails: a circle that is an empty list is not [None], and
    the call does not raise: the circle is ignored and both figures are
    written. *)
Lemma plot_events_empty_circle_returns :
  let r := plot_events Libraries.grey (Libraries.listed_cmap Libraries.Paired)
             Libraries.grid_dist Libraries.in_bounding_box Libraries.cosd
             Libraries.sind
             (__init__ Libraries.three_events
                (Some (mkseq PyList [45; 46; -13; -12]))
                (Some (mkseq PyList [0; 50])) None false true)
             (Some "All"%string) (Some []) None None Libraries.fresh_pyplot in
  (exists s, fst r = Ok (s, ("All_original.pdf", "All_relocated.pdf")%string)) /\
  map fst (files (snd r)) = ["All_original.pdf"; "All_relocated.pdf"]%string.
Proof.
  intros r. split; [eexists |]; vm_compute; reflexivity.
Qed.
End PlotterProps.


(** * Further properties *)

(** ** Extents: what an explicit extent must look like, and what a computed
    one covers *)
Module ExtentEdges.
Import MapCrossSection.

(** X1: an extent computed from samples with a buffer fraction that is not
    negative covers every sample: each longitude lies between the first two
    items of the map extent, each latitude between the last two, and each
    depth between the two items of the depth extent. *)
Theorem samples_within_extent (e ed : option pyseq)
    (latitudes longitudes depths : list Q) (b : Q) (m d : pyseq) :
  if_truthy e = None -> if_truthy ed = None -> 0 <= b ->
  _get_map_extent e (Some latitudes) (Some longitudes) b = Ok m ->
  _get_depth_extent ed (Some depths) b = Ok d ->
  exists x0 x1 y0 y1 z0 z1,
    m = mkseq PyTuple [x0; x1; y0; y1] /\ d = mkseq PyTuple [z0; z1] /\
    (forall x, In x longitudes -> x0 <= x <= x1) /\
    (forall y, In y latitudes -> y0 <= y <= y1) /\
    (forall z, In z depths -> z0 <= z <= z1).
Proof.
  intros He Hed Hb Hm Hd.
  unfold _get_map_extent in Hm. unfold _get_depth_extent in Hd.
  rewrite He in Hm. rewrite Hed in Hd.
  assert (cover : forall xs lo hi x,
             is_min lo xs -> is_max hi xs -> In x xs ->
             lo - (hi - lo) * b <= x <= hi + (hi - lo) * b).
  { intros xs lo hi x (Hin & Hlo) (_ & Hhi) Hx.
    pose proof (Hlo x Hx). pose proof (Hhi x Hx).
    pose proof (Hhi lo Hin).
    assert (0 <= (hi - lo) * b) by (apply Qmult_le_0_compat; lra).
    lra. }
  destruct longitudes as [| lon lons]; [discriminate |].
  destruct latitudes as [| lat lats]; [discriminate |].
  destruct depths as [| dep deps]; [discriminate |].
  destruct (py_min_spec (lon :: lons)) as (x0 & Ex0 & Hx0); [discriminate |].
  destruct (py_max_spec (lon :: lons)) as (x1 & Ex1 & Hx1); [discriminate |].
  destruct (py_min_spec (lat :: lats)) as (y0 & Ey0 & Hy0); [discriminate |].
  destruct (py_max_spec (lat :: lats)) as (y1 & Ey1 & Hy1); [discriminate |].
  destruct (py_min_spec (dep :: deps)) as (z0 & Ez0 & Hz0); [discriminate |].
  destruct (py_max_spec (dep :: deps)) as (z1 & Ez1 & Hz1); [discriminate |].
  rewrite Ex0, Ex1, Ey0, Ey1 in Hm. rewrite Ez0, Ez1 in Hd.
  cbn [rbind] in Hm, Hd. injection Hm as <-. injection Hd as <-.
  do 6 eexists. split; [reflexivity |]. split; [reflexivity |].
  split; [| split]; intros v Hv; eapply cover; eassumption.
Qed.

Lemma samples_within_extent_witness :
  exists x0 x1 y0 y1 z0 z1,
    mkseq PyTuple [45.1200; 45.6800; -12.9400; -12.6600]
      = mkseq PyTuple [x0; x1; y0; y1] /\
    mkseq PyTuple [5.0; 40.0] = mkseq PyTuple [z0; z1] /\
    (forall x, In x [45.2; 45.6] -> x0 <= x <= x1) /\
    (forall y, In y [-12.9; -12.7] -> y0 <= y <= y1) /\
    (forall z, In z [10; 35] -> z0 <= z <= z1).
Proof.
  apply (samples_within_extent None None [-12.9; -12.7] [45.2; 45.6] [10; 35]
           0.2);
    first [reflexivity | discriminate].
Defined.

(** X2: an explicit map extent (not empty) is accepted exactly when it has
    four items with x0 < x1 and y0 < y1; it is then returned as it is,
    whatever the samples and the buffer; every other one fails an
    assertion. *)
Theorem explicit_map_extent_accepted_iff (e : pyseq)
    (lats lons : option (list Q)) (b : Q) :
  items e <> [] ->
  (_get_map_extent (Some e) lats lons b = Ok e <->
   exists x0 x1 y0 y1, items e = [x0; x1; y0; y1] /\ x0 < x1 /\ y0 < y1) /\
  (forall m, _get_map_extent (Some e) lats lons b = Ok m -> m = e) /\
  ((exists msg, _get_map_extent (Some e) lats lons b
                = Raise (AssertionError msg)) \/
   _get_map_extent (Some e) lats lons b = Ok e).
Proof.
  intros Hne.
  assert (Et : if_truthy (Some e) = Some e).
  { simpl. destruct (items e); [congruence | reflexivity]. }
  split; [split |]; [| | split].
  - intros H.
    destruct (ExtentProps.explicit_map_extent_checked e e lats lons b Et H)
      as (_ & H'). exact H'.
  - intros (x0 & x1 & y0 & y1 & Ei & Hx & Hy).
    unfold _get_map_extent, getitem. rewrite Et, Ei. simpl.
    apply Qgtb_true in Hx, Hy. now rewrite Hx, Hy.
  - intros m H.
    now destruct (ExtentProps.explicit_map_extent_checked e m lats lons b Et H).
  - unfold _get_map_extent, getitem. rewrite Et.
    destruct (items e) as [| x0 [| x1 [| y0 [| y1 [| z l]]]]];
      try (left; eexists; reflexivity).
    simpl. destruct (Qgtb x1 x0); simpl; [| left; eexists; reflexivity].
    destruct (Qgtb y1 y0); simpl; [now right | left; eexists; reflexivity].
Qed.

Lemma explicit_map_extent_accepted_iff_witness :
  let e := mkseq PyList [45; 46; -13; -12] in
  (_get_map_extent (Some e) None None 0.2 = Ok e <->
   exists x0 x1 y0 y1, items e = [x0; x1; y0; y1] /\ x0 < x1 /\ y0 < y1) /\
  (forall m, _get_map_extent (Some e) None None 0.2 = Ok m -> m = e) /\
  ((exists msg, _get_map_extent (Some e) None None 0.2
                = Raise (AssertionError msg)) \/
   _get_map_extent (Some e) None None 0.2 = Ok e).
Proof.
  intros e.
  apply (explicit_map_extent_accepted_iff e None None 0.2). discriminate.
Defined.

(** X3: an explicit depth extent is only checked on its first two items: with
    one item indexing raises [IndexError]; with two or more it is returned as
    it is, further items included, exactly when z0 < z1, and fails the
    assertion otherwise. *)
Theorem explicit_depth_extent_edges (k : seqkind) (z0 z1 : Q) (rest : list Q)
    (depths : option (list Q)) (b : Q) :
  _get_depth_extent (Some (mkseq k [z0])) depths b = Raise IndexError /\
  (z0 < z1 ->
   _get_depth_extent (Some (mkseq k (z0 :: z1 :: rest))) depths b
   = Ok (mkseq k (z0 :: z1 :: rest))) /\
  (z1 <= z0 ->
   _get_depth_extent (Some (mkseq k (z0 :: z1 :: rest))) depths b
   = Raise (AssertionError "depth_extent: z0 >= z1")).
Proof.
  split; [reflexivity |]. split.
  - intros H. unfold _get_depth_extent, getitem. simpl.
    apply Qgtb_true in H. now rewrite H.
  - apply ExtentProps.explicit_depth_extent_rejected.
Qed.

(** X4: handing a computed map extent back as an explicit one (as the second
    figure of the plotter does) returns it unchanged exactly when the
    samples it was computed from are spread on both axes; otherwise it is
    rejected. *)
Theorem computed_extent_accepted_iff (latitudes longitudes : list Q)
    (b : Q) (m : pyseq) (lats' lons' : option (list Q)) (b' : Q) :
  0 <= b ->
  _get_map_extent None (Some latitudes) (Some longitudes) b = Ok m ->
  (_get_map_extent (Some m) lats' lons' b' = Ok m <->
   HypoDDPlotter.spread longitudes /\ HypoDDPlotter.spread latitudes).
Proof.
  intros Hb Hm. unfold _get_map_extent in Hm. simpl in Hm.
  destruct longitudes as [| lon lons]; [discriminate |].
  destruct latitudes as [| lat lats]; [discriminate |].
  destruct (py_min_spec (lon :: lons)) as (x0 & Ex0 & Hx0); [discriminate |].
  destruct (py_max_spec (lon :: lons)) as (x1 & Ex1 & Hx1); [discriminate |].
  destruct (py_min_spec (lat :: lats)) as (y0 & Ey0 & Hy0); [discriminate |].
  destruct (py_max_spec (lat :: lats)) as (y1 & Ey1 & Hy1); [discriminate |].
  rewrite Ex0, Ex1, Ey0, Ey1 in Hm. cbn [rbind] in Hm. injection Hm as <-.
  assert (Hbx : 0 <= (x1 - x0) * b).
  { apply Qmult_le_0_compat; [| exact Hb].
    destruct Hx0 as (Hin & _). destruct Hx1 as (_ & Hhi).
    specialize (Hhi x0 Hin). lra. }
  assert (Hby : 0 <= (y1 - y0) * b).
  { apply Qmult_le_0_compat; [| exact Hb].
    destruct Hy0 as (Hin & _). destruct Hy1 as (_ & Hhi).
    specialize (Hhi y0 Hin). lra. }
  unfold _get_map_extent, getitem. simpl. split.
  - intros H.
    destruct (Qgtb (x1 + (x1 - x0) * b) (x0 - (x1 - x0) * b)) eqn:Gx;
      [| discriminate].
    destruct (Qgtb (y1 + (y1 - y0) * b) (y0 - (y1 - y0) * b)) eqn:Gy;
      [| discriminate].
    apply Qgtb_true in Gx, Gy.
    assert (Lx : x0 < x1).
    { destruct (Qlt_le_dec x0 x1) as [L | L]; [exact L |].
      destruct Hx0 as (Hin & _). destruct Hx1 as (_ & Hhi).
      specialize (Hhi x0 Hin).
      assert (E : x1 - x0 == 0) by lra. rewrite E in Gx. lra. }
    assert (Ly : y0 < y1).
    { destruct (Qlt_le_dec y0 y1) as [L | L]; [exact L |].
      destruct Hy0 as (Hin & _). destruct Hy1 as (_ & Hhi).
      specialize (Hhi y0 Hin).
      assert (E : y1 - y0 == 0) by lra. rewrite E in Gy. lra. }
    split.
    + exists x0, x1. split; [apply Hx0 | split; [apply Hx1 | exact Lx]].
    + exists y0, y1. split; [apply Hy0 | split; [apply Hy1 | exact Ly]].
  - intros ((a & c & Ha & Hc & Hac) & (a' & c' & Ha' & Hc' & Hac')).
    assert (Lx : x0 < x1).
    { destruct Hx0 as (_ & Hlo). destruct Hx1 as (_ & Hhi).
      specialize (Hlo a Ha). specialize (Hhi c Hc). lra. }
    assert (Ly : y0 < y1).
    { destruct Hy0 as (_ & Hlo). destruct Hy1 as (_ & Hhi).
      specialize (Hlo a' Ha'). specialize (Hhi c' Hc'). lra. }
    assert (Gx : Qgtb (x1 + (x1 - x0) * b) (x0 - (x1 - x0) * b) = true)
      by (apply Qgtb_true; lra).
    assert (Gy : Qgtb (y1 + (y1 - y0) * b) (y0 - (y1 - y0) * b) = true)
      by (apply Qgtb_true; lra).
    now rewrite Gx, Gy.
Qed.

Lemma computed_extent_accepted_iff_witness :
  let m := mkseq PyTuple [45.1200; 45.6800; -12.9400; -12.6600] in
  _get_map_extent (Some m) None None 0 = Ok m <->
  HypoDDPlotter.spread [45.2; 45.6] /\ HypoDDPlotter.spread [-12.9; -12.7].
Proof.
  intros m.
  apply (computed_extent_accepted_iff [-12.9; -12.7] [45.2; 45.6] 0.2 m
           None None 0);
    first [reflexivity | discriminate].
Defined.
End ExtentEdges.

(** ** Panels: where they lie in the figure and what scale they have *)
Module PanelGeometry.
Import Pyplot MapCrossSection.

Lemma cross_lt (a b c d : Q) :
  0 < b -> 0 < d -> (a / b < c / d <-> a * d < c * b).
Proof.
  intros Hb Hd.
  assert (E1 : a * d == a / b * (b * d)) by (field; lra).
  assert (E2 : c * b == c / d * (b * d)) by (field; lra).
  assert (Hbd : 0 < b * d) by (apply Qmult_lt_0_compat; assumption).
  split; intros H.
  - rewrite E1, E2. apply Qmult_lt_compat_r; assumption.
  - rewrite E1, E2 in H.
    destruct (Qlt_le_dec (a / b) (c / d)) as [L | L]; [exact L |].
    apply (Qmult_le_compat_r _ _ (b * d)) in L; lra.
Qed.

(** The adjustment never enlarges a scale factor, and leaves one of the two
    as it was. *)
Lemma adjusted_scales_bounds (X Y fx fy : Q) :
  0 < X -> 0 < Y -> 0 < fx -> 0 < fy ->
  let pa := X / Y in
  let fa := fx / fy in
  let k := if Qgtb pa fa then (fx / X, fy / Y * (fa / pa))
           else if Qltb pa fa then (fx / X * (pa / fa), fy / Y)
                else (fx / X, fy / Y) in
  fst k <= fx / X /\ snd k <= fy / Y /\
  (fst k == fx / X \/ snd k == fy / Y).
Proof.
  intros HX HY Hfx Hfy pa fa k.
  pose proof (LayoutProps.adjusted_scales_equal X Y fx fy HX HY Hfx Hfy)
    as (He & _).
  fold pa fa k in He. subst k pa fa.
  destruct (Qgtb (X / Y) (fx / fy)) eqn:E1; simpl in *.
  - apply Qgtb_true in E1.
    apply (proj1 (cross_lt fx fy X Y Hfy HY)) in E1.
    assert (L : fx / X < fy / Y)
      by (apply (proj2 (cross_lt fx X fy Y HX HY)); lra).
    split; [lra |]. split; [rewrite <- He; lra | left; reflexivity].
  - destruct (Qltb (X / Y) (fx / fy)) eqn:E2; simpl in *.
    + apply Qltb_true in E2.
      apply (proj1 (cross_lt X Y fx fy HY Hfy)) in E2.
      assert (L : fy / Y < fx / X)
        by (apply (proj2 (cross_lt fy Y fx X HY HX)); lra).
      split; [rewrite He; lra |]. split; [lra | right; reflexivity].
    + split; [lra |]. split; [lra | left; reflexivity].
Qed.

Section Layout.
Variable cosd : Q -> Q.
Hypothesis cosd_proper : Proper (Qeq ==> Qeq) cosd.

(** The scale factors against the drawing area. *)
Lemma scales_bounds (s : t) (fig : Figure) (fill : bool) (k : scales) :
  valid_extents cosd s -> valid_figure s fig ->
  _make_rects_scales cosd s fig fill = Ok k ->
  fig_xrange k = fst (size_inches fig) - pad_left s - pad_right s /\
  fig_yrange k = snd (size_inches fig) - pad_top s - pad_bottom s /\
  inch_per_km_x k <= fig_xrange k / xrange_km cosd (adjusted k) /\
  inch_per_km_y k <= fig_yrange k / yrange_km (adjusted k) /\
  (inch_per_km_x k == fig_xrange k / xrange_km cosd (adjusted k) \/
   inch_per_km_y k == fig_yrange k / yrange_km (adjusted k)) /\
  (fill = true ->
   inch_per_km_y k == fig_yrange k / yrange_km (adjusted k)).
Proof.
  intros Hv (Hix & Hiy & Hfx & Hfy) H.
  unfold _make_rects_scales in H.
  destruct (size_inches fig) as [ix iy]. simpl in Hix, Hiy, Hfx, Hfy.
  set (fx := ix - pad_left s - pad_right s) in *.
  set (fy := iy - pad_top s - pad_bottom s) in *.
  pose proof (LayoutProps.Qdiv_pos fx fy Hfx Hfy) as Hfa.
  destruct (if fill then _adjustminmax cosd s (fx / fy) else Ok s)
    as [s' |] eqn:Ea; [| discriminate].
  destruct (LayoutProps.adjusted_spec cosd cosd_proper s s' (fx / fy) fill
              Hv Hfa Ea) as (Hv' & _ & Hp).
  pose proof (LayoutProps.valid_ranges cosd s' Hv') as (_ & _ & _ & _ & HX & HY).
  pose proof (adjusted_scales_bounds (xrange_km cosd s') (yrange_km s')
                fx fy HX HY Hfx Hfy) as HS.
  cbv zeta in HS. cbn [rbind] in H.
  unfold MapCrossSection.plot_aspect in H, Hp.
  destruct (Qgtb (xrange_km cosd s' / yrange_km s') (fx / fy)) eqn:E1;
    [| destruct (Qltb (xrange_km cosd s' / yrange_km s') (fx / fy)) eqn:E2];
    injection H as <-;
    cbn [adjusted fig_xrange fig_yrange inch_per_km_x inch_per_km_y fst snd]
      in *;
    destruct HS as (HS1 & HS2 & HS3);
    refine (conj eq_refl (conj eq_refl (conj HS1 (conj HS2 (conj HS3 _)))));
    intros Hfill; specialize (Hp Hfill).
  - apply Qgtb_true in E1. lra.
  - apply Qltb_true in E2. lra.
  - reflexivity.
Qed.


End Layout.




Lemma fill_figure_raises_on_tuple_witness :
  _make_rects Libraries.cosd
    (mk ((1852 # 1000) * 60) (mkseq PyTuple [45; 46; -13; -12])
        (mkseq PyTuple [0; 50]) 0.6 0.6 0.4 0.4 None)
    Libraries.figure_small true = Raise TypeError.
Proof.
  apply (LayoutProps.fill_figure_raises_on_tuple Libraries.cosd
           (mk ((1852 # 1000) * 60) (mkseq PyTuple [45; 46; -13; -12])
               (mkseq PyTuple [0; 50]) 0.6 0.6 0.4 0.4 None)
           Libraries.figure_small);
    reflexivity.
Defined.
End PanelGeometry.

(** ** The constructor of the map with cross-sections: coastlines *)
Module CoastlineProps.
Import Pyplot MapCrossSection.

Section Construction.
Variable cosd : Q -> Q.

End Construction.

End CoastlineProps.

(** ** Shapes: outlines, radii, and filtering a catalog *)
Module ShapeEdges.
Import Pyplot ShapeSelection.

Section Outline.
Variables cosd sind : Q -> Q.

(** X10: drawing the outline of a polygon closes its vertex list in place,
    once: afterwards the list ends with its first vertex and is either the
    list as it was (when it was closed) or that list with its first vertex
    appended; drawing the outline again leaves the list as it is. *)
Theorem polygon_plot_closes_once (p : Polygon) (ax : nat)
    (linestyle : option string) (linewidth : option Q) (tr : transform)
    (st : state) :
  drawable (APolygon p) ->
  exists p' st' v,
    Polygon_plot p ax linestyle linewidth tr st = (Ok p', st') /\
    hd_error (polygon p) = Some v /\
    list_Qeqb v (last (polygon p') v) = true /\
    (polygon p' = polygon p \/ polygon p' = polygon p ++ [v]) /\
    forall ax2 linestyle2 linewidth2 tr2 st2,
    exists st3,
      Polygon_plot p' ax2 linestyle2 linewidth2 tr2 st2 = (Ok p', st3).
Proof.
  intros (Hne & Hall).
  destruct (polygon p) as [| v vs] eqn:Ep; [congruence |].
  set (closed := if negb (list_Qeqb v (last (v :: vs) v))
                 then (v :: vs) ++ [v] else v :: vs).
  assert (Hc : Forall (fun v => (2 <= List.length v)%nat) closed).
  { subst closed. destruct (negb _); [| exact Hall].
    apply Forall_app. split; [exact Hall |].
    constructor; [now inversion Hall | constructor]. }
  assert (Hhd : exists rest, closed = v :: rest).
  { subst closed. destruct (negb _); simpl; eauto. }
  assert (Hlast : list_Qeqb v (last closed v) = true).
  { subst closed. destruct (list_Qeqb v (last (v :: vs) v)) eqn:E; cbn [negb].
    - exact E.
    - rewrite last_last. apply PlotterProps.list_Qeqb_refl. }
  destruct (PlotterProps.column_ok closed 0) as (xs & Ex).
  { eapply Forall_impl; [| exact Hc]. simpl. intros; lia. }
  destruct (PlotterProps.column_ok closed 1 Hc) as (ys & Ey).
  exists (mkPolygon closed). eexists. exists v.
  split.
  { unfold Polygon_plot, bind, lift. rewrite Ep. fold closed.
    rewrite Ex, Ey. reflexivity. }
  split; [reflexivity |]. split; [exact Hlast |]. split.
  { subst closed. simpl. destruct (negb _); [now right | now left]. }
  intros ax2 ls2 lw2 tr2 st2.
  destruct Hhd as (rest & Eh).
  unfold Polygon_plot, bind, lift. cbn [polygon].
  rewrite Eh. rewrite <- Eh. rewrite Hlast. cbn [negb].
  rewrite Ex, Ey. eexists. reflexivity.
Qed.

(** The outline of a polygon without a vertex cannot be drawn: indexing its
    first vertex raises, and nothing is drawn. *)
Lemma polygon_plot_empty (ax : nat) (linestyle : option string)
    (linewidth : option Q) (tr : transform) (st : state) :
  Polygon_plot (mkPolygon []) ax linestyle linewidth tr st
  = (Raise IndexError, st).
Proof. reflexivity. Qed.
End Outline.

Lemma polygon_plot_closes_once_witness :
  let p := mkPolygon [[45.2; -12.9]; [45.2; -12.7]; [45.6; -12.7]] in
  exists p' st' v,
    Polygon_plot p 0 (Some "--"%string) None Geodetic Libraries.fresh_pyplot
      = (Ok p', st') /\
    hd_error (polygon p) = Some v /\
    list_Qeqb v (last (polygon p') v) = true /\
    (polygon p' = polygon p \/ polygon p' = polygon p ++ [v]) /\
    forall ax2 linestyle2 linewidth2 tr2 st2,
    exists st3,
      Polygon_plot p' ax2 linestyle2 linewidth2 tr2 st2 = (Ok p', st3).
Proof.
  intros p.
  apply (polygon_plot_closes_once p 0 (Some "--"%string) None Geodetic
           Libraries.fresh_pyplot).
  split; [discriminate |]. repeat constructor.
Defined.

Section Radius.
Variable gps2dist_azimuth : Q -> Q -> Q -> Q -> Q.

(** Distances are not negative. *)
Hypothesis dist_nonneg :
  forall lat1 lon1 lat2 lon2, 0 <= gps2dist_azimuth lat1 lon1 lat2 lon2.

(** X11: a circle contains no point at all when its radius is negative, and
    a circle of a larger radius around the same centre contains every point
    that the smaller one contains. *)
Theorem circle_radius (clon clat r r' elon elat : Q) :
  (r < 0 ->
   Circle_contains gps2dist_azimuth
     (mkCircle (VNum clon) (VNum clat) (VNum r)) elon elat = Ok false) /\
  (r <= r' ->
   Circle_contains gps2dist_azimuth
     (mkCircle (VNum clon) (VNum clat) (VNum r)) elon elat = Ok true ->
   Circle_contains gps2dist_azimuth
     (mkCircle (VNum clon) (VNum clat) (VNum r')) elon elat = Ok true).
Proof.
  unfold Circle_contains. simpl. split.
  - intros Hr. f_equal.
    destruct (Qle_bool _ r) eqn:E; [| reflexivity].
    apply Qle_bool_iff in E.
    assert (0 <= gps2dist_azimuth elat elon clat clon / (1852 * 60)).
    { apply Qle_shift_div_l; [reflexivity |].
      rewrite Qmult_0_l. apply dist_nonneg. }
    lra.
  - intros Hr H. injection H as H. f_equal.
    apply Qle_bool_iff in H. apply Qle_bool_iff. lra.
Qed.
End Radius.

Lemma grid_dist_nonneg (lat1 lon1 lat2 lon2 : Q) :
  0 <= Libraries.grid_dist lat1 lon1 lat2 lon2.
Proof.
  unfold Libraries.grid_dist.
  pose proof (Qabs_nonneg (lat1 - lat2)).
  pose proof (Qabs_nonneg (lon1 - lon2)).
  apply Qmult_le_0_compat; [discriminate | lra].
Qed.

Lemma circle_radius_witness :
  (-(1 # 10) < 0 ->
   Circle_contains Libraries.grid_dist
     (mkCircle (VNum 45.3) (VNum (-12.8)) (VNum (-(1 # 10)))) 45.3 (-12.8)
   = Ok false) /\
  (-(1 # 10) <= 0.1 ->
   Circle_contains Libraries.grid_dist
     (mkCircle (VNum 45.3) (VNum (-12.8)) (VNum (-(1 # 10)))) 45.3 (-12.8)
   = Ok true ->
   Circle_contains Libraries.grid_dist
     (mkCircle (VNum 45.3) (VNum (-12.8)) (VNum 0.1)) 45.3 (-12.8) = Ok true).
Proof.
  apply (circle_radius Libraries.grid_dist grid_dist_nonneg
           45.3 (-12.8) (-(1 # 10)) 0.1 45.3 (-12.8)).
Defined.
End ShapeEdges.

(** ** Filtering a catalog by a shape ([include], [exclude]) *)
Module ShapeFilterProps.
Import Catalog ShapeFilter.

Lemma filter_twice {A} (f : A -> bool) (l : list A) :
  filter f (filter f l) = filter f l.
Proof.
  induction l as [| x l IH]; simpl; [reflexivity |].
  destruct (f x) eqn:E; simpl; [rewrite E |]; now rewrite IH.
Qed.

Lemma filter_then_not {A} (f : A -> bool) (l : list A) :
  filter (fun x => negb (f x)) (filter f l) = [].
Proof.
  induction l as [| x l IH]; simpl; [reflexivity |].
  destruct (f x) eqn:E; simpl; [rewrite E |]; exact IH.
Qed.

Lemma filter_lengths {A} (f : A -> bool) (l : list A) :
  (List.length (filter f l) + List.length (filter (fun x => negb (f x)) l)
   = List.length l)%nat.
Proof.
  induction l as [| x l IH]; simpl; [reflexivity |].
  destruct (f x); simpl; lia.
Qed.

Section Filter.
Variable preferred_origin : Event -> option Origin.
Variable gps2dist_azimuth : Q -> Q -> Q -> Q -> Q.
Variable contains_point : list (list Q) -> Q * Q -> result bool.
Variable sh : ShapeSelection.Shape.

Abbreviation include_loop :=
  (include_loop preferred_origin gps2dist_azimuth contains_point sh).
Abbreviation exclude_loop :=
  (exclude_loop preferred_origin gps2dist_azimuth contains_point sh).
Abbreviation include :=
  (include preferred_origin gps2dist_azimuth contains_point sh).
Abbreviation exclude :=
  (exclude preferred_origin gps2dist_azimuth contains_point sh).
Abbreviation inside :=
  (inside preferred_origin gps2dist_azimuth contains_point sh).
Abbreviation decided :=
  (decided preferred_origin gps2dist_azimuth contains_point sh).

Lemma include_loop_filter (catalog acc : list Event) :
  Forall decided catalog ->
  include_loop catalog acc = Done (acc ++ filter inside catalog).
Proof.
  intros H. revert acc.
  induction H as [| e catalog (o & b & Eo & Eb) _ IH]; intros acc; simpl.
  - now rewrite app_nil_r.
  - unfold ShapeFilter.inside. rewrite Eo, Eb. rewrite IH.
    destruct b; [now rewrite <- app_assoc | reflexivity].
Qed.

Lemma exclude_loop_filter (catalog acc : list Event) :
  Forall decided catalog ->
  exclude_loop catalog acc
  = Done (acc ++ filter (fun e => negb (inside e)) catalog).
Proof.
  intros H. revert acc.
  induction H as [| e catalog (o & b & Eo & Eb) _ IH]; intros acc; simpl.
  - now rewrite app_nil_r.
  - unfold ShapeFilter.inside. rewrite Eo, Eb. rewrite IH.
    destruct b; simpl; [reflexivity | now rewrite <- app_assoc].
Qed.

Lemma include_done_decided (catalog acc r : list Event) :
  include_loop catalog acc = Done r -> Forall decided catalog.
Proof.
  revert acc. induction catalog as [| e catalog IH]; intros acc H;
    [constructor |].
  simpl in H.
  destruct (preferred_origin e) as [o |] eqn:Eo; [| discriminate].
  destruct (ShapeSelection.contains gps2dist_azimuth contains_point sh
              (longitude o) (latitude o)) as [b |] eqn:Eb; [| discriminate].
  constructor; [now exists o, b | eapply IH; exact H].
Qed.

Lemma exclude_done_decided (catalog acc r : list Event) :
  exclude_loop catalog acc = Done r -> Forall decided catalog.
Proof.
  revert acc. induction catalog as [| e catalog IH]; intros acc H;
    [constructor |].
  simpl in H.
  destruct (preferred_origin e) as [o |] eqn:Eo; [| discriminate].
  destruct (ShapeSelection.contains gps2dist_azimuth contains_point sh
              (longitude o) (latitude o)) as [b |] eqn:Eb; [| discriminate].
  constructor; [now exists o, b | eapply IH; exact H].
Qed.

(** X12: [include] and [exclude] split a catalog.  When [include] returns,
    so does [exclude]; [include] returns the events whose preferred origin
    the shape contains and [exclude] the others, both in catalog order, and
    together they hold as many events as the catalog; and when one of them
    raises, so does the other. *)
Theorem include_exclude_split (catalog : list Event) :
  (forall inc, include catalog = Done inc ->
     inc = filter inside catalog /\
     exclude catalog = Done (filter (fun e => negb (inside e)) catalog) /\
     (List.length inc
      + List.length (filter (fun e => negb (inside e)) catalog)
      = List.length catalog)%nat) /\
  ((exists inc, include catalog = Done inc) <->
   (exists exc, exclude catalog = Done exc)) /\
  ((exists inc, include catalog = Done inc) <-> Forall decided catalog).
Proof.
  split; [| split].
  - intros inc H. unfold ShapeFilter.include in H.
    pose proof (include_done_decided catalog [] inc H) as Hd.
    rewrite (include_loop_filter catalog [] Hd) in H. injection H as <-.
    split; [reflexivity |]. split.
    + unfold ShapeFilter.exclude. now rewrite (exclude_loop_filter catalog [] Hd).
    + apply filter_lengths.
  - split; intros (r & H).
    + apply include_done_decided in H. eexists.
      unfold ShapeFilter.exclude. now rewrite (exclude_loop_filter catalog [] H).
    + apply exclude_done_decided in H. eexists.
      unfold ShapeFilter.include. now rewrite (include_loop_filter catalog [] H).
  - split.
    + intros (r & H). now apply include_done_decided in H.
    + intros H. eexists. unfold ShapeFilter.include.
      now rewrite (include_loop_filter catalog [] H).
Qed.

(** X13: filtering twice changes nothing: [include] of what [include]
    returned returns it again, and [exclude] of it returns an empty
    catalog. *)
Theorem include_idempotent (catalog inc : list Event) :
  include catalog = Done inc ->
  include inc = Done inc /\ exclude inc = Done [].
Proof.
  intros H. unfold ShapeFilter.include in H.
  pose proof (include_done_decided catalog [] inc H) as Hd.
  rewrite (include_loop_filter catalog [] Hd) in H. injection H as <-.
  assert (Hd' : Forall decided (filter inside catalog)).
  { apply Forall_forall. intros e He. apply filter_In in He.
    rewrite Forall_forall in Hd. apply Hd, He. }
  unfold ShapeFilter.include, ShapeFilter.exclude.
  rewrite (include_loop_filter _ [] Hd'), (exclude_loop_filter _ [] Hd').
  simpl. now rewrite filter_twice, filter_then_not.
Qed.
End Filter.

Lemma include_idempotent_witness :
  let inc := ShapeFilter.include Libraries.last_as_preferred Libraries.grid_dist
               Libraries.in_bounding_box Libraries.swarm_polygon in
  let exc := ShapeFilter.exclude Libraries.last_as_preferred Libraries.grid_dist
               Libraries.in_bounding_box Libraries.swarm_polygon in
  exists kept,
    inc Libraries.three_events = Done kept /\
    List.length kept = 1%nat /\
    inc kept = Done kept /\ exc kept = Done [].
Proof.
  intros inc exc.
  destruct (inc Libraries.three_events) as [kept | |] eqn:E;
    try (vm_compute in E; discriminate).
  exists kept. split; [reflexivity |]. split.
  - vm_compute in E. injection E as <-. reflexivity.
  - apply (include_idempotent Libraries.last_as_preferred Libraries.grid_dist
             Libraries.in_bounding_box Libraries.swarm_polygon
             Libraries.three_events kept E).
Defined.
End ShapeFilterProps.

(** ** The plotter: positions, plot parameters and files *)
Module PlotterInvariants.
Import Pyplot Catalog HypoDDPlotter.

Lemma extract_spec (events : list Event) (po pr o r : Positions) :
  extract events po pr = Ok (o, r) ->
  Forall (fun e => origins e <> []) events /\
  o = mkPositions
        (latitudes po ++ map latitude (first_origins events))
        (longitudes po ++ map longitude (first_origins events))
        (depths po ++ map (fun x => depth x / 1000) (first_origins events)) /\
  r = mkPositions
        (latitudes pr ++ map latitude (last_origins events))
        (longitudes pr ++ map longitude (last_origins events))
        (depths pr ++ map (fun x => depth x / 1000) (last_origins events)).
Proof.
  revert po pr. induction events as [| e events IH]; intros po pr H; simpl in H.
  - injection H as <- <-. simpl. rewrite !app_nil_r.
    split; [constructor |]. now destruct po, pr.
  - unfold first_origin, last_origin in H.
    destruct (origins e) as [| o1 rest] eqn:Eo; [discriminate |].
    cbn [rbind] in H. apply IH in H. destruct H as (Hall & -> & ->).
    split; [constructor; [congruence | exact Hall] |].
    unfold first_origins, last_origins. simpl. rewrite Eo. simpl.
    rewrite <- !app_assoc. split; reflexivity.
Qed.

Lemma extract_raises (events : list Event) (po pr : Positions) :
  Exists (fun e => origins e = []) events ->
  extract events po pr = Raise IndexError.
Proof.
  intros H. revert po pr.
  induction events as [| e events IH]; intros po pr; [inversion H |].
  simpl. unfold first_origin, last_origin.
  destruct (origins e) as [| o1 rest] eqn:Eo; [reflexivity |].
  cbn [rbind]. apply IH. inversion H; subst; [congruence | assumption].
Qed.

Lemma origins_lengths (events : list Event) :
  Forall (fun e => origins e <> []) events ->
  List.length (first_origins events) = List.length events /\
  List.length (last_origins events) = List.length events.
Proof.
  intros H. induction H as [| e events He _ (IH1 & IH2)]; [now split |].
  unfold first_origins, last_origins in *. simpl.
  destruct (origins e); [congruence |]. simpl. now rewrite IH1, IH2.
Qed.

Lemma extract_total (events : list Event) :
  Forall (fun e => origins e <> []) events ->
  forall po pr, exists p, extract events po pr = Ok p.
Proof.
  intros H. induction H as [| e events He _ IH]; intros po pr; simpl.
  - eauto.
  - unfold first_origin, last_origin.
    destruct (origins e); [congruence |]. cbn [rbind]. apply IH.
Qed.

(** X14: [_extract_positions] returns exactly when every event has an origin
    and raises [IndexError] otherwise.  The positions returned are those of
    the first and of the last origins, in catalog order, with the depths
    divided by 1000; both hold one latitude, one longitude and one depth
    per event, so that [validate] is true of both. *)
Theorem extract_positions_spec (s : t) :
  (forall original relocated,
     _extract_positions s = Ok (original, relocated) ->
     original = mkPositions
                  (map latitude (first_origins (cat s)))
                  (map longitude (first_origins (cat s)))
                  (map (fun o => depth o / 1000) (first_origins (cat s))) /\
     relocated = mkPositions
                   (map latitude (last_origins (cat s)))
                   (map longitude (last_origins (cat s)))
                   (map (fun o => depth o / 1000) (last_origins (cat s))) /\
     List.length (latitudes original) = List.length (cat s) /\
     List.length (latitudes relocated) = List.length (cat s) /\
     validate original = true /\ validate relocated = true) /\
  ((exists p, _extract_positions s = Ok p) <->
   Forall (fun e => origins e <> []) (cat s)) /\
  (_extract_positions s = Raise IndexError <->
   Exists (fun e => origins e = []) (cat s)).
Proof.
  assert (Hdec : Forall (fun e => origins e <> []) (cat s)
                 \/ Exists (fun e => origins e = []) (cat s)).
  { induction (cat s) as [| e l [IH | IH]].
    - left. constructor.
    - destruct (origins e) eqn:E.
      + right. now constructor.
      + left. constructor; [congruence | exact IH].
    - right. now constructor 2. }
  assert (Hok : forall o r, _extract_positions s = Ok (o, r) ->
                  Forall (fun e => origins e <> []) (cat s) /\
                  o = mkPositions
                        (map latitude (first_origins (cat s)))
                        (map longitude (first_origins (cat s)))
                        (map (fun o => depth o / 1000) (first_origins (cat s)))
                  /\
                  r = mkPositions
                        (map latitude (last_origins (cat s)))
                        (map longitude (last_origins (cat s)))
                        (map (fun o => depth o / 1000) (last_origins (cat s)))).
  { intros o r H. now apply extract_spec in H. }
  split; [| split].
  - intros o r H. destruct (Hok o r H) as (Hall & -> & ->).
    destruct (origins_lengths (cat s) Hall) as (L1 & L2).
    unfold validate. cbn [latitudes longitudes depths].
    rewrite !length_map, L1, L2, !Nat.eqb_refl. now repeat split.
  - split.
    + intros ([o r] & H). now destruct (Hok o r H).
    + intros Hall. apply extract_total. exact Hall.
  - split.
    + intros H. destruct Hdec as [Hall | Hex]; [| exact Hex].
      destruct (extract_total (cat s) Hall (mkPositions [] [] [])
                  (mkPositions [] [] [])) as (p & E).
      unfold _extract_positions in H. congruence.
    + apply extract_raises.
Qed.

Lemma select_same_length {A B} (mask : list bool) (xs : list A) (ys : list B) :
  List.length xs = List.length ys ->
  List.length (select mask xs) = List.length (select mask ys).
Proof.
  revert xs ys. induction mask as [| i mask IH]; intros xs ys H;
    [reflexivity |].
  destruct xs as [| x xs], ys as [| y ys]; try discriminate; [reflexivity |].
  simpl. injection H as H. destruct i; simpl; now rewrite (IH xs ys H).
Qed.

Lemma select_all {A} (xs : list A) :
  select (repeat true (List.length xs)) xs = xs.
Proof. induction xs as [| x xs IH]; simpl; [reflexivity | now rewrite IH]. Qed.

Section Parameters.
Variable color_invalid : rgba.
Variable cmap : Z -> rgba.
Variable gps2dist_azimuth : Q -> Q -> Q -> Q -> Q.
Variable contains_point : list (list Q) -> Q * Q -> result bool.

Lemma plot_params_lengths (events : list Event)
    (shape : option ShapeSelection.Shape) (cs cs' : list rgba)
    (ms ms' : list Q) (ins ins' : list bool) :
  plot_params color_invalid cmap gps2dist_azimuth contains_point events shape
    cs ms ins = Ok (cs', ms', ins') ->
  List.length cs' = (List.length cs + List.length events)%nat /\
  List.length ms' = (List.length ms + List.length events)%nat /\
  List.length ins' = (List.length ins + List.length events)%nat /\
  (shape = None -> ins' = ins ++ repeat true (List.length events)).
Proof.
  revert cs ms ins.
  induction events as [| e events IH]; intros cs ms ins H; simpl in H.
  - injection H as <- <- <-. rewrite !Nat.add_0_r, app_nil_r. now repeat split.
  - destruct (first_magnitude e) as [m |]; [| discriminate]. cbn [rbind] in H.
    destruct (event_color color_invalid cmap e) as [c |]; [| discriminate].
    cbn [rbind] in H.
    match type of H with
    | rbind ?a _ = _ => destruct a as [inside |] eqn:Ei; [| discriminate]
    end.
    cbn [rbind] in H. apply IH in H. destruct H as (H1 & H2 & H3 & H4).
    rewrite H1, H2, H3, !length_app. simpl.
    repeat split; try lia.
    intros ->. specialize (H4 eq_refl). injection Ei as <-.
    rewrite H4, <- app_assoc. reflexivity.
Qed.

(** X15: when [_set_plot_params] returns, the plotter holds one colour, one
    magnitude and one in-shape flag per event of the catalog, so that the
    highlighted layer of every panel gets as many colours as points; without
    a shape every flag is true and the highlighted layer holds every event
    with its colour. *)
Theorem plot_params_per_event (s s' : t)
    (shape : option ShapeSelection.Shape) :
  _set_plot_params color_invalid cmap gps2dist_azimuth contains_point s shape
    = Ok s' ->
  List.length (colors s') = List.length (cat s) /\
  List.length (magnitudes s') = List.length (cat s) /\
  List.length (inshape s') = List.length (cat s) /\
  cat s' = cat s /\
  (forall xs : list Q,
     List.length xs = List.length (cat s) ->
     List.length (select (inshape s') xs)
     = List.length (select (inshape s') (colors s'))) /\
  (shape = None ->
   inshape s' = repeat true (List.length (cat s)) /\
   select (inshape s') (colors s') = colors s' /\
   forall xs : list Q,
     List.length xs = List.length (cat s) -> select (inshape s') xs = xs).
Proof.
  intros H. unfold _set_plot_params in H.
  destruct (plot_params _ _ _ _ (cat s) shape [] [] [])
    as [[[cs ms] ins] |] eqn:Ep; [| discriminate].
  cbn [rbind] in H. injection H as <-.
  destruct (plot_params_lengths _ _ _ _ _ _ _ _ Ep) as (H1 & H2 & H3 & H4).
  cbn [colors magnitudes inshape cat set_params]. simpl in H1, H2, H3, H4.
  repeat split; try assumption.
  - intros xs Hx. apply select_same_length. congruence.
  - now apply H4.
  - rewrite (H4 H), <- H1. apply select_all.
  - intros xs Hx. rewrite (H4 H), <- Hx. apply select_all.
Qed.
End Parameters.

Lemma plot_params_per_event_witness :
  let s := __init__ Libraries.three_events None None None false true in
  exists s',
    _set_plot_params Libraries.grey (Libraries.listed_cmap Libraries.Paired)
      Libraries.grid_dist Libraries.in_bounding_box s
      (Some Libraries.swarm_polygon) = Ok s' /\
    List.length (colors s') = List.length (cat s) /\
    List.length (magnitudes s') = List.length (cat s) /\
    List.length (inshape s') = List.length (cat s) /\
    cat s' = cat s /\
    (forall xs : list Q,
       List.length xs = List.length (cat s) ->
       List.length (select (inshape s') xs)
       = List.length (select (inshape s') (colors s'))) /\
    (Some Libraries.swarm_polygon = None ->
     inshape s' = repeat true (List.length (cat s)) /\
     select (inshape s') (colors s') = colors s' /\
     forall xs : list Q,
       List.length xs = List.length (cat s) -> select (inshape s') xs = xs).
Proof.
  intros s.
  destruct (_set_plot_params Libraries.grey
              (Libraries.listed_cmap Libraries.Paired) Libraries.grid_dist
              Libraries.in_bounding_box s (Some Libraries.swarm_polygon))
    as [s' |] eqn:E; [| vm_compute in E; discriminate].
  exists s'. split; [reflexivity |].
  apply (plot_params_per_event Libraries.grey
           (Libraries.listed_cmap Libraries.Paired) Libraries.grid_dist
           Libraries.in_bounding_box s s' (Some Libraries.swarm_polygon) E).
Defined.

(** *** Files *)

Lemma keeps_ret {A} (a : A) : keeps_files (ret a).
Proof. intros s. reflexivity. Qed.

Lemma keeps_lift {A} (r : result A) : keeps_files (lift r).
Proof. intros s. reflexivity. Qed.

Lemma keeps_figure : keeps_files figure.
Proof. intros s. reflexivity. Qed.

Lemma keeps_clf : keeps_files clf.
Proof. intros s. reflexivity. Qed.

Lemma keeps_add_axes (a : Axes) : keeps_files (add_axes a).
Proof. intros s. reflexivity. Qed.

Lemma keeps_on_axes (ax : nat) (f : Axes -> Axes) : keeps_files (on_axes ax f).
Proof. intros s. reflexivity. Qed.

Lemma keeps_print (line : string) : keeps_files (print line).
Proof. intros s. reflexivity. Qed.

Lemma keeps_bind {A B} (m : M A) (k : A -> M B) :
  keeps_files m -> (forall a, keeps_files (k a)) -> keeps_files (bind m k).
Proof.
  intros Hm Hk s. unfold bind. specialize (Hm s).
  destruct (m s) as [[a | e] s1]; simpl in *; [| exact Hm].
  now rewrite Hk.
Qed.

Ltac keeps :=
  repeat first
    [ apply keeps_ret | apply keeps_lift | apply keeps_figure
    | apply keeps_clf | apply keeps_add_axes | apply keeps_on_axes
    | apply keeps_print
    | apply keeps_bind; [| intros ?]
    | match goal with
      | |- keeps_files (match ?x with _ => _ end) => destruct x
      end ].

Lemma keeps_init (cosd : Q -> Q) (fill : bool) (pl pr pt pb : Q)
    (me de : option pyseq) (b : Q) (lats lons deps : option (list Q))
    (grid : bool) (coast : option string) :
  keeps_files (MapCrossSection.__init__ cosd fill pl pr pt pb me de b lats
                 lons deps grid coast).
Proof. unfold MapCrossSection.__init__. keeps. Qed.

Lemma keeps_plot_2D (s : t) (ax : nat) (xs ys : list Q)
    (tr : option transform) :
  keeps_files (_plot_2D s ax xs ys tr).
Proof. unfold _plot_2D. keeps. Qed.

Lemma keeps_shape_plot (cosd sind : Q -> Q) (sh : ShapeSelection.Shape)
    (ax : nat) (linestyle : option string) (linewidth : option Q)
    (tr : transform) :
  keeps_files (ShapeSelection.plot cosd sind sh ax linestyle linewidth tr).
Proof.
  unfold ShapeSelection.plot, ShapeSelection.Circle_plot,
    ShapeSelection.Polygon_plot.
  keeps.
Qed.

Lemma keeps_plot_events (cosd sind : Q -> Q) (s : t) (pos : Positions)
    (shape : option ShapeSelection.Shape) (me de : option pyseq) :
  keeps_files (_plot_events cosd sind s pos shape me de).
Proof.
  unfold _plot_events.
  repeat first
    [ apply keeps_init | apply keeps_plot_2D | apply keeps_shape_plot
    | apply keeps_ret | apply keeps_clf | apply keeps_on_axes
    | apply keeps_bind; [| intros ?]
    | match goal with
      | |- keeps_files (match ?x with _ => _ end) => destruct x
      end ].
Qed.

Lemma bind_raise {A B} (m : M A) (k : A -> M B) (s s' : state) (e : exn) :
  m s = (Raise e, s') -> bind m k s = (Raise e, s').
Proof. intros E. unfold bind. now rewrite E. Qed.

Section Files.
Variable color_invalid : rgba.
Variable cmap : Z -> rgba.
Variable gps2dist_azimuth : Q -> Q -> Q -> Q -> Q.
Variable contains_point : list (list Q) -> Q * Q -> result bool.
Variables cosd sind : Q -> Q.

(** What one run of [_plot_original_relocated] writes. *)
Lemma original_relocated_files (s : t)
    (shape : option ShapeSelection.Shape) (st : state) :
  let original := (file_base s ++ "_original.pdf")%string in
  let relocated := (file_base s ++ "_relocated.pdf")%string in
  exists st',
    (exists s' f1 f2,
       _plot_original_relocated color_invalid cmap gps2dist_azimuth
         contains_point cosd sind s shape st = (Ok s', st') /\
       original_filename s' = original /\
       relocated_filename s' = relocated /\
       file_base s' = file_base s /\
       files st' = files st ++ [(original, f1); (relocated, f2)]) \/
    (exists e,
       _plot_original_relocated color_invalid cmap gps2dist_azimuth
         contains_point cosd sind s shape st = (Raise e, st') /\
       (files st' = files st \/
        exists f1, files st' = files st ++ [(original, f1)])).
Proof.
  intros original relocated. unfold _plot_original_relocated.
  set (s1 := set_filenames s _ _).
  destruct (_extract_positions s1) as [[op rp] | e] eqn:Ee.
  2:{ exists st. right. exists e. split; [| now left].
      now apply bind_raise. }
  rewrite (PlotterProps.bind_run (lift (Ok (op, rp))) _ st st (op, rp) eq_refl).
  cbv beta iota.
  destruct (_set_plot_params color_invalid cmap gps2dist_azimuth
              contains_point s1 shape) as [s2 | e] eqn:Ep.
  2:{ exists st. right. exists e. split; [| now left].
      now apply bind_raise. }
  rewrite (PlotterProps.bind_run (lift (Ok s2)) _ st st s2 eq_refl).
  cbv beta zeta.
  assert (Hs2 : original_filename s2 = original /\
                relocated_filename s2 = relocated /\
                file_base s2 = file_base s /\ quiet s2 = quiet s).
  { unfold _set_plot_params in Ep.
    destruct (plot_params _ _ _ _ (cat s1) shape [] [] [])
      as [[[cs ms] ins] |]; [| discriminate].
    cbn [rbind] in Ep. injection Ep as <-. now repeat split. }
  destruct Hs2 as (Ho & Hr & Hb & Hq).
  set (s3 := set_marker_size s2 1).
  change (original_filename s3) with (original_filename s2).
  change (relocated_filename s3) with (relocated_filename s2).
  change (quiet s3) with (quiet s2).
  rewrite Ho, Hr.
  destruct (_plot_events cosd sind s3 op shape (map_extent s3)
              (depth_extent s3) st) as [[[shape1 [m d]] | e] st1] eqn:E1;
    pose proof (keeps_plot_events cosd sind s3 op shape (map_extent s3)
                  (depth_extent s3) st) as F1;
    rewrite E1 in F1; cbn [snd] in F1.
  2:{ exists st1. right. exists e. split; [| now left].
      now apply bind_raise. }
  rewrite (PlotterProps.bind_run _ _ st st1 _ E1). cbv beta iota.
  rewrite (PlotterProps.bind_run (savefig original) _ st1 _ tt eq_refl).
  match goal with
  | |- context [bind (if ?b then print ?l else ret tt) _ ?x] =>
      destruct (PlotterProps.print_or_not b l x) as (st2 & E2 & F2 & _ & G2);
      rewrite (PlotterProps.bind_run _ _ x st2 tt E2)
  end.
  cbn [files gcf] in F2, G2.
  destruct (_plot_events cosd sind s3 rp shape1 (Some m) (Some d) st2)
    as [[res | e] st3] eqn:E3;
    pose proof (keeps_plot_events cosd sind s3 rp shape1 (Some m) (Some d)
                  st2) as F3;
    rewrite E3 in F3; cbn [snd] in F3.
  2:{ exists st3. right. exists e. split; [now apply bind_raise |].
      right. exists (gcf st1). now rewrite F3, F2, F1. }
  rewrite (PlotterProps.bind_run _ _ st2 st3 _ E3).
  rewrite (PlotterProps.bind_run (savefig relocated) _ st3 _ tt eq_refl).
  match goal with
  | |- context [bind (if ?b then print ?l else ret tt) _ ?x] =>
      destruct (PlotterProps.print_or_not b l x) as (st4 & E4 & F4 & _ & G4);
      rewrite (PlotterProps.bind_run _ _ x st4 tt E4)
  end.
  cbn [files gcf] in F4, G4.
  exists st4. left. exists s3, (gcf st1), (gcf st3).
  split; [reflexivity |].
  split; [exact Ho |]. split; [exact Hr |]. split; [exact Hb |].
  rewrite F4, F3, F2, F1, <- app_assoc. reflexivity.
Qed.

(** X16: what [plot_events] writes.  When it returns, it returns the two
    names made of the file base in force (the one given, or the one kept by
    the plotter when none or an empty one is given) with [_original.pdf] and
    [_relocated.pdf], it has written exactly these two files, in this order,
    and it keeps the file base for the next call.  When it raises, it has
    written nothing, or the original figure only: never the relocated
    figure alone, and never a file of another name. *)
Theorem plot_events_files (s : t) (file_base : option string)
    (circle : option (list Q)) (polygon : option (list (list Q)))
    (coastlines : option string) (st : state) :
  let base := match truthy_string file_base with
              | Some b => b
              | None => HypoDDPlotter.file_base s
              end in
  let run := plot_events color_invalid cmap gps2dist_azimuth contains_point
               cosd sind s file_base circle polygon coastlines st in
  (forall s' names,
     fst run = Ok (s', names) ->
     names = (base ++ "_original.pdf", base ++ "_relocated.pdf")%string /\
     HypoDDPlotter.file_base s' = base /\
     exists f1 f2,
       files (snd run) = files st ++ [(fst names, f1); (snd names, f2)]) /\
  (forall e,
     fst run = Raise e ->
     files (snd run) = files st \/
     exists f1,
       files (snd run) = files st ++ [((base ++ "_original.pdf")%string, f1)]).
Proof.
  intros base run. subst run. unfold plot_events.
  set (s0 := match truthy_string coastlines with
             | Some c => set_coastlines s (Some c)
             | None => s
             end).
  set (s1 := match truthy_string file_base with
             | Some b => set_file_base s0 b
             | None => s0
             end).
  assert (Hb : HypoDDPlotter.file_base s1 = base).
  { subst s1 s0 base. destruct (truthy_string file_base); [reflexivity |].
    now destruct (truthy_string coastlines). }
  cbv zeta.
  destruct (truthy_list circle) as [c |].
  { split; [intros s' names H; discriminate | intros e _; now left]. }
  rewrite (PlotterProps.bind_run (ret None) _ st st None eq_refl).
  set (shape := match truthy_list polygon with
                | Some p => Some (ShapeSelection.APolygon
                                    (ShapeSelection.mkPolygon p))
                | None => None
                end).
  assert (Es : forall k : option ShapeSelection.Shape -> M (t * (string * string)),
             bind match truthy_list polygon with
                  | Some polygon =>
                      bind (lift (ShapeSelection.Polygon__init__ polygon))
                           (fun p => ret (Some (ShapeSelection.APolygon p)))
                  | None => ret None
                  end k st = k shape st).
  { intros k. subst shape. now destruct (truthy_list polygon). }
  rewrite Es.
  destruct (original_relocated_files s1 shape st)
    as (st' & [(s' & f1 & f2 & E & Ho & Hr & Hfb & Hf) | (e & E & Hf)]).
  - rewrite (PlotterProps.bind_run _ _ st st' s' E).
    unfold ret. cbn [fst snd]. split; [| intros e H; discriminate].
    intros s'' names H. injection H as <- <-.
    rewrite Ho, Hr, Hfb, Hb. split; [reflexivity |]. split; [reflexivity |].
    exists f1, f2. cbn [fst snd]. now rewrite Hf, Hb.
  - rewrite (bind_raise _ _ st st' e E). cbn [fst snd].
    split; [intros s'' names H; discriminate |].
    intros e' _. rewrite <- Hb. exact Hf.
Qed.
End Files.
End PlotterInvariants.
